(** * gpx-normalize: the resampler of [normalizeGPX] (gpxutils.go)

    A shallow embedding of [normalizeGPX] and the properties of its
    resampling loop.  Go's [float64] is Rocq's primitive binary64 float, so
    NaN, infinities, signed zeros and rounding are those of the program.
    Slice indexing is fallible ([Panic] is Go's index-out-of-range panic) and
    the returned [error] values are an inductive type.

    Indices and lengths are [nat]: the function returns before any of
    [len(sourcePoints)-1], [len(sourcePoints)-2] is evaluated when the slice
    has fewer than two points, and no counter exceeds [len(sourcePoints)] or
    [numTargetPoints], so Go's [int] never wraps or goes negative here. *)

From Stdlib Require Import ZArith List String Bool Arith Lia.
From Stdlib Require Import Floats Uint63.
Import ListNotations.

Local Open Scope list_scope.
Local Open Scope nat_scope.

(** ** Data model (the parts of package [gpx] the function touches) *)

Definition float64 := PrimFloat.float.

(** [float64(i)] for a non-negative [int]. *)
Definition float64_of_int (i : nat) : float64 :=
  PrimFloat.of_uint63 (Uint63.of_Z (Z.of_nat i)).

(** [math.IsNaN]. *)
Definition IsNaN (f : float64) : bool := PrimFloat.is_nan f.

(** [time.Time], an instant; its zero value is [zeroTime]. *)
Definition time_Time := Z.
Definition zeroTime : time_Time := 0%Z.

(** [gpx.NullableFloat64], which embeds [sql.NullFloat64]. *)
Record NullableFloat64 := mkNullFloat64 {
  Float64 : float64;
  Valid : bool
}.

(** [n.Value()]. *)
Definition Value (n : NullableFloat64) : float64 := Float64 n.

(** [*gpx.NewNullableFloat64(v)]. *)
Definition NewNullableFloat64 (v : float64) : NullableFloat64 :=
  {| Float64 := v; Valid := true |}.

(** The zero value of [NullableFloat64]: no elevation. *)
Definition nullElevation : NullableFloat64 :=
  {| Float64 := 0%float; Valid := false |}.

Record GPXPoint := mkGPXPoint {
  Latitude : float64;
  Longitude : float64;
  Elevation : NullableFloat64;
  Timestamp : time_Time
}.

Record GPXTrackSegment := mkSegment { Points : list GPXPoint }.

Record GPXTrack := mkTrack { Segments : list GPXTrackSegment }.

Record GpxBounds := mkBounds {
  MinLatitude : float64;
  MaxLatitude : float64;
  MinLongitude : float64;
  MaxLongitude : float64
}.

(** [gpx.Extension], kept as its raw nodes. *)
Definition Extension := list string.

Record GPX := mkGPX {
  Version : string;
  Creator : string;
  Name : string;
  Description : string;
  AuthorName : string;
  CopyrightAuthor : string;
  CopyrightYear : string;
  CopyrightLicense : string;
  Link : string;
  LinkText : string;
  Time : option time_Time;
  Keywords : string;
  Bounds : option GpxBounds;
  Extensions : Extension;
  Tracks : list GPXTrack
}.

(** The position of a point: what the endpoint claims compare. *)
Definition position (p : GPXPoint) : float64 * float64 :=
  (Latitude p, Longitude p).

(** ** Errors, panics and the result monad *)

(** One constructor per [fmt.Errorf] of [normalizeGPX]; [cause] is the
    wrapped error of the collaborator. *)
Inductive error :=
| ErrReadFile (inputFile cause : string)
| ErrParse (inputFile cause : string)
| ErrNoTracks (inputFile : string)
| ErrNoSegments (inputFile : string)
| ErrNotEnoughPoints (inputFile : string) (found : nat)
| ErrToXml (outputFile cause : string)
| ErrWriteFile (outputFile cause : string).

Inductive result (A : Type) :=
| Ok (a : A)
| Err (e : error)
| Panic.

Arguments Ok {A} a.
Arguments Err {A} e.
Arguments Panic {A}.

Definition bind {A B : Type} (r : result A) (k : A -> result B) : result B :=
  match r with
  | Ok a => k a
  | Err e => Err e
  | Panic => Panic
  end.

Notation "x <- r ;; k" := (bind r (fun x => k))
  (at level 61, r at next level, right associativity).

(** [s[i]]: a runtime panic when [i] is out of range. *)
Definition index {A : Type} (s : list A) (i : nat) : result A :=
  match nth_error s i with
  | Some x => Ok x
  | None => Panic
  end.

(** [for i := start; i < start+k; i++ { st = body i st }]. *)
Fixpoint forRange {S : Type} (k start : nat) (body : nat -> S -> result S)
  (st : S) : result S :=
  match k with
  | O => Ok st
  | Datatypes.S k' =>
      st' <- body start st ;; forRange k' (Datatypes.S start) body st'
  end.

Definition numTargetPoints : nat := 1000.

(** ** The resampler *)

(** Lines 110-117: the interpolation ratio and its clamp. *)
Definition computeRatio (targetDistForCurrentPoint distToP1 distP1P2 : float64)
  : float64 :=
  let ratio := 0%float in
  let ratio :=
    if (0 <? distP1P2)%float
    then ((targetDistForCurrentPoint - distToP1) / distP1P2)%float
    else ratio in
  let ratio := if (ratio <? 0)%float then 0%float else ratio in
  let ratio := if (1 <? ratio)%float then 1%float else ratio in
  ratio.

(** Lines 119-148: the interior point built from its bracketing points. *)
Definition interpolatePoint (p1 p2 : GPXPoint) (ratio : float64) : GPXPoint :=
  let newLat := (Latitude p1 + ratio * (Latitude p2 - Latitude p1))%float in
  let newLon := (Longitude p1 + ratio * (Longitude p2 - Longitude p1))%float in
  let newEle := 0%float in
  let p1EleValid := Valid (Elevation p1) in
  let p2EleValid := Valid (Elevation p2) in
  let elevationInterpolated := false in
  let '(newEle, elevationInterpolated) :=
    if p1EleValid && p2EleValid then
      ((Value (Elevation p1)
        + ratio * (Value (Elevation p2) - Value (Elevation p1)))%float, true)
    else if p1EleValid then (Value (Elevation p1), true)
    else if p2EleValid then (Value (Elevation p2), true)
    else (newEle, elevationInterpolated) in
  let newPoint :=
    {| Latitude := newLat; Longitude := newLon;
       Elevation := nullElevation; Timestamp := Timestamp p1 |} in
  let newPoint :=
    if IsNaN (Latitude newPoint) || IsNaN (Longitude newPoint) then
      {| Latitude := Latitude p1; Longitude := Longitude p1;
         Elevation := Elevation newPoint; Timestamp := Timestamp newPoint |}
    else newPoint in
  if elevationInterpolated then
    {| Latitude := Latitude newPoint; Longitude := Longitude newPoint;
       Elevation := NewNullableFloat64 newEle;
       Timestamp := Timestamp newPoint |}
  else newPoint.

(** The variables of the general loop that live across iterations. *)
Record loopState := mkLoopState {
  cumulativeDistance : float64;
  originalPointIndex : nat;
  newSegmentPoints : list GPXPoint
}.

(** What the cursor loop hands to the interpolation: the cumulative distance
    to [p1], the cursor, and the two bracketing source points. *)
Record bracket := mkBracket {
  bracketCum : float64;
  bracketIndex : nat;
  bracketP1 : GPXPoint;
  bracketP2 : GPXPoint
}.

Section Resampler.

(** [p.Distance2D(&q)] and [segment.Length2D()] belong to the imported
    package [gpx]; the function is verified for any such pair. *)
Variable Distance2D : GPXPoint -> GPXPoint -> float64.
Variable Length2D : GPXTrackSegment -> float64.

(** Lines 98-102, the cursor loop.  [rem] is
    [len(sourcePoints)-2 - originalPointIndex], so [rem = 0] is the failure
    of the guard [originalPointIndex < len(sourcePoints)-2]; see
    [advanceCursor_unfold] for the loop in the source's form. *)
Fixpoint advance (sourcePoints : list GPXPoint) (target : float64)
  (rem : nat) (cumulativeDistance : float64) (originalPointIndex : nat)
  : result (float64 * nat) :=
  match rem with
  | O => Ok (cumulativeDistance, originalPointIndex)
  | Datatypes.S rem' =>
      p <- index sourcePoints originalPointIndex ;;
      q <- index sourcePoints (originalPointIndex + 1) ;;
      if (cumulativeDistance + Distance2D p q <? target)%float
      then advance sourcePoints target rem'
             (cumulativeDistance + Distance2D p q)%float
             (originalPointIndex + 1)
      else Ok (cumulativeDistance, originalPointIndex)
  end.

Definition advanceCursor (sourcePoints : list GPXPoint) (target : float64)
  (cumulativeDistance : float64) (originalPointIndex : nat)
  : result (float64 * nat) :=
  advance sourcePoints target
    (List.length sourcePoints - 2 - originalPointIndex)
    cumulativeDistance originalPointIndex.

(** Lines 93-108: the target distance is located on the polyline; the
    cursor moves to the pair [(p1, p2)] that brackets it. *)
Definition locate (sourcePoints : list GPXPoint)
  (targetDistForCurrentPoint : float64)
  (cumulativeDistance : float64) (originalPointIndex : nat)
  : result bracket :=
  c <- advanceCursor sourcePoints targetDistForCurrentPoint
         cumulativeDistance originalPointIndex ;;
  let '(cumulativeDistance, originalPointIndex) := c in
  p1 <- index sourcePoints originalPointIndex ;;
  p2 <- index sourcePoints (originalPointIndex + 1) ;;
  Ok {| bracketCum := cumulativeDistance;
        bracketIndex := originalPointIndex;
        bracketP1 := p1;
        bracketP2 := p2 |}.

(** The ratio of lines 107-117 for a located target. *)
Definition bracketRatio (targetDistForCurrentPoint : float64) (b : bracket)
  : float64 :=
  let distToP1 := bracketCum b in
  let distP1P2 := Distance2D (bracketP1 b) (bracketP2 b) in
  computeRatio targetDistForCurrentPoint distToP1 distP1P2.

(** Lines 93-148: one interior iteration; returns the moved cursor and the
    new point. *)
Definition interiorStep (sourcePoints : list GPXPoint)
  (intervalDistance : float64) (i : nat)
  (cumulativeDistance : float64) (originalPointIndex : nat)
  : result (float64 * nat * GPXPoint) :=
  let targetDistForCurrentPoint :=
    (float64_of_int i * intervalDistance)%float in
  b <- locate sourcePoints targetDistForCurrentPoint
         cumulativeDistance originalPointIndex ;;
  let ratio := bracketRatio targetDistForCurrentPoint b in
  Ok (bracketCum b, bracketIndex b,
      interpolatePoint (bracketP1 b) (bracketP2 b) ratio).

(** Lines 85-151: the body of the general loop. *)
Definition loopBody (sourcePoints : list GPXPoint)
  (intervalDistance : float64) (i : nat) (st : loopState)
  : result loopState :=
  if i =? 0 then
    newPoint <- index sourcePoints 0 ;;
    Ok {| cumulativeDistance := cumulativeDistance st;
          originalPointIndex := originalPointIndex st;
          newSegmentPoints := newSegmentPoints st ++ [newPoint] |}
  else if i =? numTargetPoints - 1 then
    newPoint <- index sourcePoints (List.length sourcePoints - 1) ;;
    Ok {| cumulativeDistance := cumulativeDistance st;
          originalPointIndex := originalPointIndex st;
          newSegmentPoints := newSegmentPoints st ++ [newPoint] |}
  else
    r <- interiorStep sourcePoints intervalDistance i
           (cumulativeDistance st) (originalPointIndex st) ;;
    let '(cum, idx, newPoint) := r in
    Ok {| cumulativeDistance := cum;
          originalPointIndex := idx;
          newSegmentPoints := newSegmentPoints st ++ [newPoint] |}.

Definition initialState : loopState :=
  {| cumulativeDistance := 0%float;
     originalPointIndex := 0;
     newSegmentPoints := [] |}.

(** The state of the general loop after its first [k] iterations. *)
Definition generalLoop (sourcePoints : list GPXPoint)
  (intervalDistance : float64) (k : nat) : result loopState :=
  forRange k 0 (loopBody sourcePoints intervalDistance) initialState.

(** Lines 161-163: [for len(pts) < numTargetPoints { append lastPt }], with
    [k = numTargetPoints - len(pts)]. *)
Fixpoint padLoop (k : nat) (pts : list GPXPoint) (lastPt : GPXPoint)
  : list GPXPoint :=
  match k with
  | O => pts
  | Datatypes.S k' => padLoop k' (pts ++ [lastPt]) lastPt
  end.

(** Lines 159-166: the padding and truncation safeguard. *)
Definition safeguard (sourcePoints pts : list GPXPoint)
  : result (list GPXPoint) :=
  if (List.length pts <? numTargetPoints)
     && (0 <? List.length sourcePoints) then
    lastPt <- index pts (List.length pts - 1) ;;
    Ok (padLoop (numTargetPoints - List.length pts) pts lastPt)
  else if numTargetPoints <? List.length pts then
    Ok (firstn numTargetPoints pts)
  else Ok pts.

(** Line 81. *)
Definition intervalOf (totalDistance : float64) : float64 :=
  (totalDistance / float64_of_int (numTargetPoints - 1))%float.

(** Lines 69-166: the points of the new segment. *)
Definition resample (segment : GPXTrackSegment) : result (list GPXPoint) :=
  let sourcePoints := Points segment in
  let totalDistance := Length2D segment in
  pts <-
    (if (totalDistance =? 0)%float then
       if 0 <? List.length sourcePoints then
         firstPoint <- index sourcePoints 0 ;;
         forRange numTargetPoints 0
           (fun _ pts => Ok (pts ++ [firstPoint])) []
       else Ok []
     else
       let intervalDistance := intervalOf totalDistance in
       st <- generalLoop sourcePoints intervalDistance numTargetPoints ;;
       Ok (newSegmentPoints st)) ;;
  safeguard sourcePoints pts.

(** Lines 26-166: from the parsed file to the new GPX object. *)
Definition buildNormalized (inputFile : string) (gpxFile : GPX)
  : result GPX :=
  match Tracks gpxFile with
  | [] => Err (ErrNoTracks inputFile)
  | track :: _ =>
      match Segments track with
      | [] => Err (ErrNoSegments inputFile)
      | segment :: _ =>
          let sourcePoints := Points segment in
          if List.length sourcePoints <? 2 then
            Err (ErrNotEnoughPoints inputFile (List.length sourcePoints))
          else
            pts <- resample segment ;;
            Ok {| Creator := "gpx-normalizer"%string;
                  Version := Version gpxFile;
                  Name := Name gpxFile;
                  Description := Description gpxFile;
                  AuthorName := AuthorName gpxFile;
                  CopyrightAuthor := CopyrightAuthor gpxFile;
                  CopyrightYear := CopyrightYear gpxFile;
                  CopyrightLicense := CopyrightLicense gpxFile;
                  Link := Link gpxFile;
                  LinkText := LinkText gpxFile;
                  Time := Time gpxFile;
                  Keywords := Keywords gpxFile;
                  Bounds := Bounds gpxFile;
                  Extensions := Extensions gpxFile;
                  Tracks := [ {| Segments := [ {| Points := pts |} ] |} ] |}
      end
  end.

End Resampler.

(** ** The function with its collaborators *)

Section NormalizeGPX.

Variable Distance2D : GPXPoint -> GPXPoint -> float64.
Variable Length2D : GPXTrackSegment -> float64.

(** The file system and the collaborators: [os.ReadFile], [gpx.ParseBytes],
    [newGpx.ToXml(gpx.ToXmlParams{Version: "1.1", Indent: true})] and
    [os.WriteFile(.., .., 0644)].  [inl cause] is a non-nil [err]. *)
Variable world : Type.
Variable os_ReadFile : string -> world -> string + list Byte.byte.
Variable gpx_ParseBytes : list Byte.byte -> string + GPX.
Variable ToXml : GPX -> string + list Byte.byte.
Variable os_WriteFile :
  string -> list Byte.byte -> world -> world * option string.

(** [normalizeGPX]: the world it leaves and what it returns ([Ok tt] is a
    nil error). *)
Definition normalizeGPX (inputFile outputFile : string) (w : world)
  : world * result unit :=
  match os_ReadFile inputFile w with
  | inl cause => (w, Err (ErrReadFile inputFile cause))
  | inr gpxData =>
      match gpx_ParseBytes gpxData with
      | inl cause => (w, Err (ErrParse inputFile cause))
      | inr gpxFile =>
          match buildNormalized Distance2D Length2D inputFile gpxFile with
          | Err e => (w, Err e)
          | Panic => (w, Panic)
          | Ok newGpx =>
              match ToXml newGpx with
              | inl cause => (w, Err (ErrToXml outputFile cause))
              | inr xmlBytes =>
                  match os_WriteFile outputFile xmlBytes w with
                  | (w', Some cause) =>
                      (w', Err (ErrWriteFile outputFile cause))
                  | (w', None) => (w', Ok tt)
                  end
              end
          end
      end
  end.

End NormalizeGPX.

(** ** A planar instance of the distance functions *)

(** Modelled from the spec: [Distance2D] of the imported package [gpx], as the
    planar 2D Euclidean distance between latitude/longitude pairs treated as
    Cartesian coordinates. *)
Definition planarDistance2D (p q : GPXPoint) : float64 :=
  let dx := (Latitude p - Latitude q)%float in
  let dy := (Longitude p - Longitude q)%float in
  PrimFloat.sqrt (dx * dx + dy * dy)%float.

Fixpoint sumDistances (prev : GPXPoint) (rest : list GPXPoint)
  (acc : float64) : float64 :=
  match rest with
  | [] => acc
  | p :: rest' => sumDistances p rest' (acc + planarDistance2D prev p)%float
  end.

(** Modelled from the spec: [Length2D] of the imported package [gpx], as the
    sum of the planar distances between consecutive points. *)
Definition planarLength2D (segment : GPXTrackSegment) : float64 :=
  match Points segment with
  | [] => 0%float
  | p :: rest => sumDistances p rest 0%float
  end.

(** A point without elevation. *)
Definition pt (lat lon : float64) : GPXPoint :=
  {| Latitude := lat; Longitude := lon;
     Elevation := nullElevation; Timestamp := zeroTime |}.

(** A point with elevation. *)
Definition ptEle (lat lon ele : float64) : GPXPoint :=
  {| Latitude := lat; Longitude := lon;
     Elevation := NewNullableFloat64 ele; Timestamp := zeroTime |}.

Arguments pt (lat lon)%_float.
Arguments ptEle (lat lon ele)%_float.

(** ** Observations on a run of the general loop *)

Section Observations.

Variable Distance2D : GPXPoint -> GPXPoint -> float64.
Variable Length2D : GPXTrackSegment -> float64.

(** The target distance of output index [i]  (line 93). *)
Definition targetDist (segment : GPXTrackSegment) (i : nat) : float64 :=
  (float64_of_int i * intervalOf (Length2D segment))%float.

(** The cursor when iteration [i] of the general loop starts. *)
Definition cursorBefore (segment : GPXTrackSegment) (i : nat) : result nat :=
  st <- generalLoop Distance2D (Points segment)
          (intervalOf (Length2D segment)) i ;;
  Ok (originalPointIndex st).

(** The bracket that iteration [i] of the general loop computes. *)
Definition bracketAt (segment : GPXTrackSegment) (i : nat) : result bracket :=
  st <- generalLoop Distance2D (Points segment)
          (intervalOf (Length2D segment)) i ;;
  locate Distance2D (Points segment) (targetDist segment i)
    (cumulativeDistance st) (originalPointIndex st).

(** The ratio that iteration [i] of the general loop uses. *)
Definition ratioAt (segment : GPXTrackSegment) (i : nat) : result float64 :=
  b <- bracketAt segment i ;;
  Ok (bracketRatio Distance2D (targetDist segment i) b).

(** The accumulated length of the first [k] segments of the polyline, summed
    as the cursor loop sums it. *)
Fixpoint prefixDistance (sourcePoints : list GPXPoint) (k : nat) : float64 :=
  match k with
  | O => 0%float
  | Datatypes.S k' =>
      match nth_error sourcePoints k', nth_error sourcePoints (k' + 1) with
      | Some p, Some q =>
          (prefixDistance sourcePoints k' + Distance2D p q)%float
      | _, _ => prefixDistance sourcePoints k'
      end
  end.

(** The invariant of the general loop. *)
Definition loopInv (sourcePoints : list GPXPoint) (st : loopState) : Prop :=
  originalPointIndex st + 2 <= List.length sourcePoints /\
  cumulativeDistance st =
    prefixDistance sourcePoints (originalPointIndex st).

End Observations.

(** [x] is one of the real numbers of the closed interval [[0, 1]]. *)
Definition inUnitInterval (x : float64) : Prop :=
  (0 <=? x)%float = true /\ (x <=? 1)%float = true.

(** The last element of a slice. *)
Definition lastPoint (pts : list GPXPoint) : option GPXPoint :=
  nth_error pts (List.length pts - 1).

(** The output point of index [i], when the resampling succeeds. *)
Definition outputAt (Distance2D : GPXPoint -> GPXPoint -> float64)
  (Length2D : GPXTrackSegment -> float64) (segment : GPXTrackSegment)
  (i : nat) : option GPXPoint :=
  match resample Distance2D Length2D segment with
  | Ok out => nth_error out i
  | _ => None
  end.

(** ** Sample inputs *)

(** A straight line of ten units with elevations 0 and 10. *)
Definition straightSegment : GPXTrackSegment :=
  {| Points := [ptEle 0 0 0; ptEle 0 10 10] |}.

Definition straightGpx : GPX :=
  {| Version := "1.1"; Creator := "some-recorder"; Name := "morning ride";
     Description := "a straight line"; AuthorName := "rider";
     CopyrightAuthor := "rider"; CopyrightYear := "2024";
     CopyrightLicense := "CC0"; Link := "http://example.org/ride";
     LinkText := "ride"; Time := Some 1700000000%Z; Keywords := "test";
     Bounds := Some {| MinLatitude := 0%float; MaxLatitude := 0%float;
                       MinLongitude := 0%float; MaxLongitude := 10%float |};
     Extensions := ["<ext/>"];
     Tracks := [ {| Segments := [straightSegment] |} ] |}%string.

(** What [straightGpx] is normalized to. *)
Definition straightNormalized : GPX :=
  {| Version := "1.1"; Creator := "gpx-normalizer"; Name := "morning ride";
     Description := "a straight line"; AuthorName := "rider";
     CopyrightAuthor := "rider"; CopyrightYear := "2024";
     CopyrightLicense := "CC0"; Link := "http://example.org/ride";
     LinkText := "ride"; Time := Some 1700000000%Z; Keywords := "test";
     Bounds := Some {| MinLatitude := 0%float; MaxLatitude := 0%float;
                       MinLongitude := 0%float; MaxLongitude := 10%float |};
     Extensions := ["<ext/>"];
     Tracks :=
       [ {| Segments :=
              [ {| Points :=
                     match resample planarDistance2D planarLength2D
                             straightSegment with
                     | Ok pts => pts
                     | _ => []
                     end |} ] |} ] |}%string.

(** A file whose first segment has one point. *)
Definition onePointGpx : GPX :=
  {| Version := "1.1"; Creator := "some-recorder"; Name := "";
     Description := ""; AuthorName := ""; CopyrightAuthor := "";
     CopyrightYear := ""; CopyrightLicense := ""; Link := "";
     LinkText := ""; Time := None; Keywords := ""; Bounds := None;
     Extensions := [];
     Tracks := [ {| Segments := [ {| Points := [pt 5 5] |} ] |} ] |}%string.

(** Three coincident points. *)
Definition coincidentSegment : GPXTrackSegment :=
  {| Points := [pt 5 5; pt 5 5; pt 5 5] |}.

(** Two distinct points so close that the square of their latitude
    difference underflows to zero: the path has total length 0. *)
Definition underflowSegment : GPXTrackSegment :=
  {| Points := [pt 0 0; pt 0x1p-600 0] |}.

(** A path whose third point has a not-a-number latitude. *)
Definition nanSegment : GPXTrackSegment :=
  {| Points := [pt 0 0; pt 0 1; pt PrimFloat.nan 0] |}.

(** One unit out and the same unit back. *)
Definition outAndBackSegment : GPXTrackSegment :=
  {| Points := [pt 0 0; pt 0 1; pt 0 0] |}.

(** ** Further observations *)

(** Lines 72-152: the points of the new segment when the safeguard is
    reached. *)
Definition resampleLoop (Distance2D : GPXPoint -> GPXPoint -> float64)
  (Length2D : GPXTrackSegment -> float64) (segment : GPXTrackSegment)
  : result (list GPXPoint) :=
  let sourcePoints := Points segment in
  let totalDistance := Length2D segment in
  if (totalDistance =? 0)%float then
    if 0 <? List.length sourcePoints then
      firstPoint <- index sourcePoints 0 ;;
      forRange numTargetPoints 0 (fun _ pts => Ok (pts ++ [firstPoint])) []
    else Ok []
  else
    let intervalDistance := intervalOf totalDistance in
    st <- generalLoop Distance2D sourcePoints intervalDistance
            numTargetPoints ;;
    Ok (newSegmentPoints st).

(** Lines 43-67: the new GPX object, for the points of its only segment. *)
Definition newGpxFor (gpxFile : GPX) (pts : list GPXPoint) : GPX :=
  {| Creator := "gpx-normalizer"%string;
     Version := Version gpxFile;
     Name := Name gpxFile;
     Description := Description gpxFile;
     AuthorName := AuthorName gpxFile;
     CopyrightAuthor := CopyrightAuthor gpxFile;
     CopyrightYear := CopyrightYear gpxFile;
     CopyrightLicense := CopyrightLicense gpxFile;
     Link := Link gpxFile;
     LinkText := LinkText gpxFile;
     Time := Time gpxFile;
     Keywords := Keywords gpxFile;
     Bounds := Bounds gpxFile;
     Extensions := Extensions gpxFile;
     Tracks := [ {| Segments := [ {| Points := pts |} ] |} ] |}.

(** A file with the header of [gpxFile] and [segment] as the only segment of
    its only track. *)
Definition withOnlySegment (gpxFile : GPX) (segment : GPXTrackSegment) : GPX :=
  {| Creator := Creator gpxFile;
     Version := Version gpxFile;
     Name := Name gpxFile;
     Description := Description gpxFile;
     AuthorName := AuthorName gpxFile;
     CopyrightAuthor := CopyrightAuthor gpxFile;
     CopyrightYear := CopyrightYear gpxFile;
     CopyrightLicense := CopyrightLicense gpxFile;
     Link := Link gpxFile;
     LinkText := LinkText gpxFile;
     Time := Time gpxFile;
     Keywords := Keywords gpxFile;
     Bounds := Bounds gpxFile;
     Extensions := Extensions gpxFile;
     Tracks := [ {| Segments := [segment] |} ] |}.

(** ** Further sample inputs *)

(** A file with two tracks; the first has two segments. *)
Definition twoTrackGpx : GPX :=
  {| Version := "1.1"; Creator := "some-recorder"; Name := "two tracks";
     Description := ""; AuthorName := ""; CopyrightAuthor := "";
     CopyrightYear := ""; CopyrightLicense := ""; Link := "";
     LinkText := ""; Time := None; Keywords := ""; Bounds := None;
     Extensions := [];
     Tracks := [ {| Segments := [straightSegment; coincidentSegment] |};
                 {| Segments := [outAndBackSegment] |} ] |}%string.

(** Two coincident points, then a point with a not-a-number latitude: the
    total length is not-a-number and the cursor stays on the first pair,
    which has length 0. *)
Definition stalledSegment : GPXTrackSegment :=
  {| Points := [pt 3 4; pt 3 4; pt PrimFloat.nan 0] |}.

(** Two points recorded at instants 100 and 200. *)
Definition timedSegment : GPXTrackSegment :=
  {| Points :=
       [ {| Latitude := 0%float; Longitude := 0%float;
            Elevation := nullElevation; Timestamp := 100%Z |};
         {| Latitude := 0%float; Longitude := 8%float;
            Elevation := nullElevation; Timestamp := 200%Z |} ] |}.

(** ** Basic facts: the monad, indexing, counted loops *)

Lemma numTargetPoints_eq : numTargetPoints = 1000.
Proof. reflexivity. Qed.

Lemma numTargetPoints_pos : 0 < numTargetPoints.
Proof. rewrite numTargetPoints_eq. lia. Qed.

Lemma numTargetPoints_pred_lt : numTargetPoints - 1 < numTargetPoints.
Proof. pose proof numTargetPoints_pos. lia. Qed.

Lemma bind_Ok_inv {A B : Type} (r : result A) (k : A -> result B) (b : B) :
  bind r k = Ok b -> exists a, r = Ok a /\ k a = Ok b.
Proof.
  destruct r as [a | e | ]; simpl; intros H; try discriminate.
  exists a; split; [reflexivity | exact H].
Qed.

Lemma bind_Ok {A B : Type} (a : A) (k : A -> result B) :
  bind (Ok a) k = k a.
Proof. reflexivity. Qed.

Lemma bind_assoc {A B C : Type} (r : result A) (f : A -> result B)
  (g : B -> result C) :
  bind (bind r f) g = bind r (fun a => bind (f a) g).
Proof. destruct r; reflexivity. Qed.

Lemma index_Ok {A : Type} (s : list A) (i : nat) :
  i < List.length s -> exists x, index s i = Ok x /\ nth_error s i = Some x.
Proof.
  intros Hi. unfold index.
  destruct (nth_error s i) as [x | ] eqn:E.
  - exists x; split; reflexivity.
  - apply nth_error_None in E. lia.
Qed.

Lemma index_Ok_inv {A : Type} (s : list A) (i : nat) (x : A) :
  index s i = Ok x -> nth_error s i = Some x.
Proof.
  unfold index. destruct (nth_error s i); intros H; inversion H; reflexivity.
Qed.

Lemma forRange_split {S : Type} (a b start : nat)
  (body : nat -> S -> result S) (st : S) :
  forRange (a + b) start body st =
  bind (forRange a start body st) (forRange b (start + a) body).
Proof.
  revert start st. induction a as [ | a IH]; intros start st.
  - simpl. rewrite Nat.add_0_r. reflexivity.
  - simpl. rewrite bind_assoc. destruct (body start st) as [st' | e | ]; simpl;
      try reflexivity.
    rewrite IH.
    replace (Datatypes.S start + a) with (start + Datatypes.S a) by lia.
    reflexivity.
Qed.

Lemma forRange_snoc {S : Type} (k start : nat)
  (body : nat -> S -> result S) (st : S) :
  forRange (Datatypes.S k) start body st =
  bind (forRange k start body st) (body (start + k)).
Proof.
  replace (Datatypes.S k) with (k + 1) by lia. rewrite forRange_split.
  destruct (forRange k start body st) as [st' | e | ]; simpl; try reflexivity.
  destruct (body (start + k) st'); reflexivity.
Qed.

(** The zero-length branch: [n] appends of the same point. *)
Lemma forRange_append (p : GPXPoint) (n start : nat) (pts : list GPXPoint) :
  forRange n start (fun _ pts => Ok (pts ++ [p])) pts = Ok (pts ++ repeat p n).
Proof.
  revert start pts. induction n as [ | n IH]; intros start pts; simpl.
  - rewrite app_nil_r. reflexivity.
  - rewrite IH. rewrite <- app_assoc. reflexivity.
Qed.

Lemma padLoop_length (k : nat) (pts : list GPXPoint) (lastPt : GPXPoint) :
  List.length (padLoop k pts lastPt) = List.length pts + k.
Proof.
  revert pts. induction k as [ | k IH]; intros pts; simpl.
  - lia.
  - rewrite IH, length_app. simpl. lia.
Qed.

(** The safeguard leaves a slice of [numTargetPoints] points alone. *)
Lemma safeguard_exact (sourcePoints pts : list GPXPoint) :
  List.length pts = numTargetPoints -> safeguard sourcePoints pts = Ok pts.
Proof.
  intros Hlen. unfold safeguard. rewrite Hlen.
  rewrite Nat.ltb_irrefl. reflexivity.
Qed.

(** With a non-empty input and at least one point produced, the safeguard
    pads or truncates to exactly [numTargetPoints] points. *)
Lemma safeguard_length (sourcePoints pts : list GPXPoint) :
  1 <= List.length sourcePoints ->
  1 <= List.length pts ->
  exists out,
    safeguard sourcePoints pts = Ok out /\
    List.length out = numTargetPoints.
Proof.
  intros Hs Hp. unfold safeguard.
  destruct (List.length pts <? numTargetPoints) eqn:G1.
  - apply Nat.ltb_lt in G1.
    destruct (0 <? List.length sourcePoints) eqn:G2;
      [ | apply Nat.ltb_ge in G2; lia].
    destruct (index_Ok pts (List.length pts - 1)) as [lastPt [E _]]; [lia | ].
    simpl andb. rewrite E, bind_Ok. eexists. split; [reflexivity | ].
    rewrite padLoop_length. lia.
  - apply Nat.ltb_ge in G1. simpl andb.
    destruct (numTargetPoints <? List.length pts) eqn:G3.
    + eexists. split; [reflexivity | ]. apply firstn_length_le. exact G1.
    + apply Nat.ltb_ge in G3. exists pts. split; [reflexivity | lia].
Qed.

(** ** The cursor loop and the general loop *)

Section LoopFacts.

Variable Distance2D : GPXPoint -> GPXPoint -> float64.
Variable Length2D : GPXTrackSegment -> float64.


(** The cursor loop as the source writes it: guard, short-circuit test,
    update, repeat. *)
Lemma advanceCursor_unfold (sourcePoints : list GPXPoint) (target cum : float64)
  (idx : nat) :
  advanceCursor Distance2D sourcePoints target cum idx =
  if idx <? List.length sourcePoints - 2 then
    p <- index sourcePoints idx ;;
    q <- index sourcePoints (idx + 1) ;;
    if (cum + Distance2D p q <? target)%float
    then advanceCursor Distance2D sourcePoints target
           (cum + Distance2D p q)%float (idx + 1)
    else Ok (cum, idx)
  else Ok (cum, idx).
Proof.
  unfold advanceCursor.
  destruct (idx <? List.length sourcePoints - 2) eqn:G.
  - apply Nat.ltb_lt in G.
    destruct (List.length sourcePoints - 2 - idx) as [ | rem] eqn:R; [lia | ].
    simpl.
    replace (List.length sourcePoints - 2 - (idx + 1)) with rem by lia.
    reflexivity.
  - apply Nat.ltb_ge in G.
    replace (List.length sourcePoints - 2 - idx) with 0 by lia.
    reflexivity.
Qed.

(** The cursor loop terminates without a panic, never moves the cursor
    back and never moves it past [idx + rem]; the cumulative distance it
    returns is the accumulated length of the segments before the cursor;
    and it stops at the last pair or at a pair whose end is not before the
    target. *)
Lemma advance_spec (sourcePoints : list GPXPoint) (target : float64)
  (rem : nat) :
  forall (cum : float64) (idx : nat),
    idx + rem + 2 <= List.length sourcePoints ->
    cum = prefixDistance Distance2D sourcePoints idx ->
    exists cum' idx',
      advance Distance2D sourcePoints target rem cum idx = Ok (cum', idx') /\
      idx <= idx' /\ idx' <= idx + rem /\
      cum' = prefixDistance Distance2D sourcePoints idx' /\
      (idx' = idx + rem \/
       forall p q, nth_error sourcePoints idx' = Some p ->
                   nth_error sourcePoints (idx' + 1) = Some q ->
                   (cum' + Distance2D p q <? target)%float = false).
Proof.
  induction rem as [ | rem IH]; intros cum idx Hb Hc.
  - exists cum, idx. simpl. repeat split; try lia; auto.
  - simpl.
    destruct (index_Ok sourcePoints idx) as [p [Ep Np]]; [lia | ].
    destruct (index_Ok sourcePoints (idx + 1)) as [q [Eq Nq]]; [lia | ].
    rewrite Ep, Eq. simpl.
    destruct (cum + Distance2D p q <? target)%float eqn:T.
    + destruct (IH (cum + Distance2D p q)%float (idx + 1)) as
        [cum' [idx' [E [L1 [L2 [C S]]]]]]; [lia | | ].
      * replace (idx + 1) with (Datatypes.S idx) by lia. simpl.
        rewrite Np, Nq. rewrite Hc. reflexivity.
      * exists cum', idx'. rewrite E. repeat split; try lia; auto.
        destruct S as [S | S]; [left; lia | right; exact S].
    + exists cum, idx. repeat split; try lia; auto.
      right. intros p' q' Hp' Hq'.
      rewrite Np in Hp'. rewrite Nq in Hq'.
      inversion Hp'; inversion Hq'; subst. exact T.
Qed.

Lemma locate_spec (sourcePoints : list GPXPoint) (target cum : float64)
  (idx : nat) :
  idx + 2 <= List.length sourcePoints ->
  cum = prefixDistance Distance2D sourcePoints idx ->
  exists b,
    locate Distance2D sourcePoints target cum idx = Ok b /\
    idx <= bracketIndex b /\
    bracketIndex b + 2 <= List.length sourcePoints /\
    nth_error sourcePoints (bracketIndex b) = Some (bracketP1 b) /\
    nth_error sourcePoints (bracketIndex b + 1) = Some (bracketP2 b) /\
    bracketCum b = prefixDistance Distance2D sourcePoints (bracketIndex b) /\
    (bracketIndex b + 2 = List.length sourcePoints \/
     (bracketCum b + Distance2D (bracketP1 b) (bracketP2 b) <? target)%float
     = false).
Proof.
  intros Hb Hc. unfold locate, advanceCursor.
  destruct (advance_spec sourcePoints target
              (List.length sourcePoints - 2 - idx) cum idx)
    as [cum' [idx' [E [L1 [L2 [C S]]]]]]; [lia | exact Hc | ].
  rewrite E. simpl.
  destruct (index_Ok sourcePoints idx') as [p [Ep Np]]; [lia | ].
  destruct (index_Ok sourcePoints (idx' + 1)) as [q [Eq Nq]]; [lia | ].
  rewrite Ep, Eq. simpl.
  eexists. split; [reflexivity | ]. simpl.
  repeat split; try lia; auto.
  destruct S as [S | S]; [left; lia | right; apply S; assumption].
Qed.


(** The three cases of the loop body, under the invariant. *)
Lemma loopBody_first (sourcePoints : list GPXPoint) (iv : float64)
  (st : loopState) :
  loopInv Distance2D sourcePoints st ->
  exists p,
    nth_error sourcePoints 0 = Some p /\
    loopBody Distance2D sourcePoints iv 0 st =
    Ok {| cumulativeDistance := cumulativeDistance st;
          originalPointIndex := originalPointIndex st;
          newSegmentPoints := newSegmentPoints st ++ [p] |}.
Proof.
  intros [Hb _]. unfold loopBody. simpl (0 =? 0).
  destruct (index_Ok sourcePoints 0) as [p [Ep Np]]; [lia | ].
  exists p. rewrite Ep. split; [exact Np | reflexivity].
Qed.

Lemma loopBody_last (sourcePoints : list GPXPoint) (iv : float64)
  (st : loopState) :
  loopInv Distance2D sourcePoints st ->
  exists p,
    nth_error sourcePoints (List.length sourcePoints - 1) = Some p /\
    loopBody Distance2D sourcePoints iv (numTargetPoints - 1) st =
    Ok {| cumulativeDistance := cumulativeDistance st;
          originalPointIndex := originalPointIndex st;
          newSegmentPoints := newSegmentPoints st ++ [p] |}.
Proof.
  intros [Hb _]. unfold loopBody.
  replace (numTargetPoints - 1 =? 0) with false by reflexivity.
  rewrite Nat.eqb_refl.
  destruct (index_Ok sourcePoints (List.length sourcePoints - 1))
    as [p [Ep Np]]; [lia | ].
  exists p. rewrite Ep. split; [exact Np | reflexivity].
Qed.

Lemma loopBody_interior (sourcePoints : list GPXPoint) (iv : float64)
  (i : nat) (st : loopState) :
  0 < i -> i <> numTargetPoints - 1 ->
  loopInv Distance2D sourcePoints st ->
  exists b,
    locate Distance2D sourcePoints (float64_of_int i * iv)%float
      (cumulativeDistance st) (originalPointIndex st) = Ok b /\
    loopBody Distance2D sourcePoints iv i st =
    Ok {| cumulativeDistance := bracketCum b;
          originalPointIndex := bracketIndex b;
          newSegmentPoints :=
            newSegmentPoints st ++
            [interpolatePoint (bracketP1 b) (bracketP2 b)
               (bracketRatio Distance2D (float64_of_int i * iv)%float b)] |}.
Proof.
  intros Hi Hn [Hb Hc]. unfold loopBody, interiorStep.
  destruct (i =? 0) eqn:E0; [apply Nat.eqb_eq in E0; lia | ].
  destruct (i =? numTargetPoints - 1) eqn:E1;
    [apply Nat.eqb_eq in E1; contradiction | ].
  destruct (locate_spec sourcePoints (float64_of_int i * iv)%float
              (cumulativeDistance st) (originalPointIndex st) Hb Hc)
    as [b [E _]].
  exists b. rewrite E. split; reflexivity.
Qed.

(** One iteration appends one point, keeps the invariant and does not move
    the cursor back. *)
Lemma loopBody_spec (sourcePoints : list GPXPoint) (iv : float64) (i : nat)
  (st : loopState) :
  loopInv Distance2D sourcePoints st ->
  exists st' p,
    loopBody Distance2D sourcePoints iv i st = Ok st' /\
    newSegmentPoints st' = newSegmentPoints st ++ [p] /\
    originalPointIndex st <= originalPointIndex st' /\
    loopInv Distance2D sourcePoints st'.
Proof.
  intros Inv.
  destruct (Nat.eq_dec i 0) as [-> | H0].
  - destruct (loopBody_first sourcePoints iv st Inv) as [p [_ E]].
    eexists; exists p. split; [exact E | ]. simpl.
    repeat split; auto; apply Inv.
  - destruct (Nat.eq_dec i (numTargetPoints - 1)) as [-> | H1].
    + destruct (loopBody_last sourcePoints iv st Inv) as [p [_ E]].
      eexists; exists p. split; [exact E | ]. simpl.
      repeat split; auto; apply Inv.
    + destruct (loopBody_interior sourcePoints iv i st) as [b [L E]];
        [lia | exact H1 | exact Inv | ].
      destruct Inv as [Hb Hc].
      destruct (locate_spec sourcePoints (float64_of_int i * iv)%float
                  (cumulativeDistance st) (originalPointIndex st) Hb Hc)
        as [b' [L' [M [B [_ [_ [C _]]]]]]].
      rewrite L in L'. inversion L'; subst b'.
      eexists; eexists. split; [exact E | ]. simpl.
      repeat split; auto.
Qed.

Lemma generalLoop_step (sourcePoints : list GPXPoint) (iv : float64) (k : nat) :
  generalLoop Distance2D sourcePoints iv (Datatypes.S k) =
  bind (generalLoop Distance2D sourcePoints iv k)
    (loopBody Distance2D sourcePoints iv k).
Proof. unfold generalLoop. apply forRange_snoc. Qed.

(** After [k] iterations the loop has produced [k] points, without a panic. *)
Lemma generalLoop_spec (sourcePoints : list GPXPoint) (iv : float64) (k : nat) :
  2 <= List.length sourcePoints ->
  exists st,
    generalLoop Distance2D sourcePoints iv k = Ok st /\
    List.length (newSegmentPoints st) = k /\
    loopInv Distance2D sourcePoints st.
Proof.
  intros Hlen. induction k as [ | k [st [E [L Inv]]]].
  - exists initialState. repeat split; simpl; lia.
  - destruct (loopBody_spec sourcePoints iv k st Inv)
      as [st' [p [B [A [_ Inv']]]]].
    exists st'. rewrite generalLoop_step, E. simpl.
    repeat split; try apply Inv'; [exact B | ].
    rewrite A, length_app, L. simpl. lia.
Qed.

(** Later states extend earlier ones: the cursor has not moved back and the
    points already produced are still there. *)
Lemma generalLoop_mono (sourcePoints : list GPXPoint) (iv : float64)
  (j d : nat) (sj sk : loopState) :
  2 <= List.length sourcePoints ->
  generalLoop Distance2D sourcePoints iv j = Ok sj ->
  generalLoop Distance2D sourcePoints iv (j + d) = Ok sk ->
  originalPointIndex sj <= originalPointIndex sk /\
  exists more, newSegmentPoints sk = newSegmentPoints sj ++ more.
Proof.
  intros Hlen Ej. revert sk. induction d as [ | d IH]; intros sk Ek.
  - rewrite Nat.add_0_r, Ej in Ek. inversion Ek; subst.
    split; [lia | exists []; rewrite app_nil_r; reflexivity].
  - replace (j + Datatypes.S d) with (Datatypes.S (j + d)) in Ek by lia.
    rewrite generalLoop_step in Ek.
    apply bind_Ok_inv in Ek. destruct Ek as [sm [Em Bm]].
    destruct (IH sm Em) as [M [more P]].
    destruct (generalLoop_spec sourcePoints iv (j + d) Hlen)
      as [sm' [Em' [_ Inv]]].
    rewrite Em in Em'. inversion Em'; subst sm'.
    destruct (loopBody_spec sourcePoints iv (j + d) sm Inv)
      as [st' [p [B [A [M' _]]]]].
    rewrite Bm in B. inversion B; subst st'.
    split; [lia | ].
    exists (more ++ [p]). rewrite A, P, app_assoc. reflexivity.
Qed.

(** The point that iteration [i] appends is the point at index [i] of every
    later state. *)
Lemma generalLoop_nth (sourcePoints : list GPXPoint) (iv : float64)
  (i k : nat) (si si' sk : loopState) (p : GPXPoint) :
  2 <= List.length sourcePoints ->
  i < k ->
  generalLoop Distance2D sourcePoints iv i = Ok si ->
  loopBody Distance2D sourcePoints iv i si = Ok si' ->
  newSegmentPoints si' = newSegmentPoints si ++ [p] ->
  generalLoop Distance2D sourcePoints iv k = Ok sk ->
  nth_error (newSegmentPoints sk) i = Some p.
Proof.
  intros Hlen Hik Ei Bi Ai Ek.
  destruct (generalLoop_spec sourcePoints iv i Hlen) as [si0 [Ei0 [Li _]]].
  rewrite Ei in Ei0. inversion Ei0; subst si0.
  assert (Ei' : generalLoop Distance2D sourcePoints iv (Datatypes.S i)
                = Ok si').
  { rewrite generalLoop_step, Ei. exact Bi. }
  replace k with (Datatypes.S i + (k - Datatypes.S i)) in Ek by lia.
  destruct (generalLoop_mono sourcePoints iv (Datatypes.S i)
              (k - Datatypes.S i) si' sk Hlen Ei' Ek) as [_ [more P]].
  rewrite P, Ai, <- app_assoc. simpl.
  rewrite nth_error_app2 by lia.
  replace (i - List.length (newSegmentPoints si)) with 0 by lia.
  reflexivity.
Qed.

End LoopFacts.

(** ** The two branches of [resample] *)

Section ResampleFacts.

Variable Distance2D : GPXPoint -> GPXPoint -> float64.
Variable Length2D : GPXTrackSegment -> float64.

(** Zero total distance: [numTargetPoints] copies of the first point. *)
Lemma resample_zero (segment : GPXTrackSegment) :
  1 <= List.length (Points segment) ->
  (Length2D segment =? 0)%float = true ->
  exists first,
    nth_error (Points segment) 0 = Some first /\
    resample Distance2D Length2D segment = Ok (repeat first numTargetPoints).
Proof.
  intros Hlen Hz. unfold resample. rewrite Hz.
  destruct (0 <? List.length (Points segment)) eqn:G;
    [ | apply Nat.ltb_ge in G; lia].
  destruct (index_Ok (Points segment) 0) as [first [E N]]; [lia | ].
  exists first. split; [exact N | ].
  rewrite E, bind_Ok, forRange_append, bind_Ok, app_nil_l.
  apply safeguard_exact. apply repeat_length.
Qed.

(** Non-zero total distance: the points of the general loop, untouched by
    the safeguard. *)
Lemma resample_general (segment : GPXTrackSegment) :
  2 <= List.length (Points segment) ->
  (Length2D segment =? 0)%float = false ->
  exists st,
    generalLoop Distance2D (Points segment) (intervalOf (Length2D segment))
      numTargetPoints = Ok st /\
    List.length (newSegmentPoints st) = numTargetPoints /\
    resample Distance2D Length2D segment = Ok (newSegmentPoints st).
Proof.
  intros Hlen Hz.
  destruct (generalLoop_spec Distance2D (Points segment)
              (intervalOf (Length2D segment)) numTargetPoints Hlen)
    as [st [E [L _]]].
  exists st. repeat split; auto.
  unfold resample. rewrite Hz, E, !bind_Ok.
  apply safeguard_exact. exact L.
Qed.

(** Every path of two or more points is resampled, to exactly
    [numTargetPoints] points. *)
Lemma resample_total (segment : GPXTrackSegment) :
  2 <= List.length (Points segment) ->
  exists pts,
    resample Distance2D Length2D segment = Ok pts /\
    List.length pts = numTargetPoints.
Proof.
  intros Hlen.
  destruct (Length2D segment =? 0)%float eqn:Hz.
  - destruct (resample_zero segment) as [first [_ E]]; [lia | exact Hz | ].
    exists (repeat first numTargetPoints). split; [exact E | ].
    apply repeat_length.
  - destruct (resample_general segment Hlen Hz) as [st [_ [L E]]].
    exists (newSegmentPoints st). split; assumption.
Qed.

(** The interior output point of index [i] is the interpolation that
    iteration [i] computes from its bracket. *)
Lemma interior_output (segment : GPXTrackSegment) (i : nat) :
  2 <= List.length (Points segment) ->
  (Length2D segment =? 0)%float = false ->
  0 < i -> i < numTargetPoints - 1 ->
  exists out st b,
    resample Distance2D Length2D segment = Ok out /\
    generalLoop Distance2D (Points segment) (intervalOf (Length2D segment)) i
      = Ok st /\
    loopInv Distance2D (Points segment) st /\
    locate Distance2D (Points segment) (targetDist Length2D segment i)
      (cumulativeDistance st) (originalPointIndex st) = Ok b /\
    bracketAt Distance2D Length2D segment i = Ok b /\
    nth_error out i =
      Some (interpolatePoint (bracketP1 b) (bracketP2 b)
              (bracketRatio Distance2D (targetDist Length2D segment i) b)).
Proof.
  intros Hlen Hz Hi0 Hi1.
  destruct (resample_general segment Hlen Hz) as [sk [Ek [_ Er]]].
  destruct (generalLoop_spec Distance2D (Points segment)
              (intervalOf (Length2D segment)) i Hlen) as [st [Ei [_ Inv]]].
  destruct (loopBody_interior Distance2D (Points segment)
              (intervalOf (Length2D segment)) i st) as [b [Lb Bb]];
    [exact Hi0 | lia | exact Inv | ].
  exists (newSegmentPoints sk), st, b.
  split; [exact Er | ]. split; [exact Ei | ]. split; [exact Inv | ].
  split; [exact Lb | ]. split.
  - unfold bracketAt. rewrite Ei. exact Lb.
  - assert (Hik : i < numTargetPoints) by lia.
    exact (generalLoop_nth Distance2D (Points segment)
             (intervalOf (Length2D segment)) i numTargetPoints st _ sk _
             Hlen Hik Ei Bb eq_refl Ek).
Qed.

(** The endpoints of the general branch are the endpoints of the input. *)
Lemma endpoints_general (segment : GPXTrackSegment) :
  2 <= List.length (Points segment) ->
  (Length2D segment =? 0)%float = false ->
  exists out first last,
    resample Distance2D Length2D segment = Ok out /\
    nth_error (Points segment) 0 = Some first /\
    lastPoint (Points segment) = Some last /\
    nth_error out 0 = Some first /\
    lastPoint out = Some last.
Proof.
  intros Hlen Hz.
  destruct (resample_general segment Hlen Hz) as [sk [Ek [Lk Er]]].
  set (iv := intervalOf (Length2D segment)) in *.
  destruct (generalLoop_spec Distance2D (Points segment) iv 0 Hlen)
    as [s0 [E0 [_ Inv0]]].
  destruct (loopBody_first Distance2D (Points segment) iv s0 Inv0)
    as [first [Nf Bf]].
  destruct (generalLoop_spec Distance2D (Points segment) iv
              (numTargetPoints - 1) Hlen) as [sl [El [Ll Invl]]].
  destruct (loopBody_last Distance2D (Points segment) iv sl Invl)
    as [last [Nl Bl]].
  exists (newSegmentPoints sk), first, last.
  split; [exact Er | ]. split; [exact Nf | ]. split; [exact Nl | ]. split.
  - exact (generalLoop_nth Distance2D (Points segment) iv 0 numTargetPoints
             s0 _ sk first Hlen numTargetPoints_pos E0 Bf eq_refl Ek).
  - unfold lastPoint. rewrite Lk.
    exact (generalLoop_nth Distance2D (Points segment) iv
             (numTargetPoints - 1) numTargetPoints sl _ sk last Hlen
             numTargetPoints_pred_lt El Bl eq_refl Ek).
Qed.

End ResampleFacts.

(** ** Comparisons of binary64 floats *)

Lemma SFcompare_antisym (x y : spec_float) :
  SFcompare y x = option_map CompOpp (SFcompare x y).
Proof.
  destruct x as [sx | sx | | sx mx ex], y as [sy | sy | | sy my ey]; simpl;
    try reflexivity;
    try (destruct sx; reflexivity); try (destruct sy; reflexivity);
    try (destruct sx, sy; reflexivity).
  pose proof (Pos.compare_cont_antisym mx my Eq) as A. simpl in A.
  destruct sx, sy; simpl; try reflexivity; f_equal;
    rewrite (Z.compare_antisym ex ey); destruct (ex ?= ey)%Z; simpl;
    try reflexivity; rewrite <- A;
    destruct (Pos.compare_cont Eq mx my); reflexivity.
Qed.

Lemma SFcompare_None (x y : spec_float) :
  SFcompare x y = None -> x = S754_nan \/ y = S754_nan.
Proof.
  destruct x, y; simpl; intros H; try discriminate; auto.
Qed.

Lemma IsNaN_false (x : float64) : IsNaN x = false -> Prim2SF x <> S754_nan.
Proof.
  unfold IsNaN, is_nan. rewrite FloatAxioms.eqb_spec. intros H E.
  rewrite E in H. discriminate.
Qed.

Lemma IsNaN_true (x : float64) : IsNaN x = true -> Prim2SF x = S754_nan.
Proof.
  unfold IsNaN, is_nan. rewrite FloatAxioms.eqb_spec. unfold SFeqb.
  destruct (Prim2SF x) as [s | s | | s m e]; simpl; try reflexivity;
    try discriminate.
  - destruct s; discriminate.
  - destruct s; rewrite Z.compare_refl, Pos.compare_cont_refl; discriminate.
Qed.

Lemma not_ltb_leb (x y : float64) :
  IsNaN x = false -> IsNaN y = false ->
  (x <? y)%float = false -> (y <=? x)%float = true.
Proof.
  intros Nx Ny. apply IsNaN_false in Nx. apply IsNaN_false in Ny.
  rewrite FloatAxioms.ltb_spec, FloatAxioms.leb_spec. unfold SFltb, SFleb.
  rewrite (SFcompare_antisym (Prim2SF x) (Prim2SF y)).
  destruct (SFcompare (Prim2SF x) (Prim2SF y)) as [[ | | ] | ] eqn:C; simpl;
    try reflexivity; try discriminate.
  intros _. destruct (SFcompare_None _ _ C); contradiction.
Qed.

Lemma eqb_not_ltb (x y : float64) :
  (x =? y)%float = true -> (y <? x)%float = false.
Proof.
  rewrite FloatAxioms.eqb_spec, FloatAxioms.ltb_spec. unfold SFeqb, SFltb.
  rewrite (SFcompare_antisym (Prim2SF x) (Prim2SF y)).
  destruct (SFcompare (Prim2SF x) (Prim2SF y)) as [[ | | ] | ]; simpl;
    try reflexivity; discriminate.
Qed.

Lemma leb_not_ltb (x y : float64) :
  (x <=? y)%float = true -> (y <? x)%float = false.
Proof.
  rewrite FloatAxioms.leb_spec, FloatAxioms.ltb_spec. unfold SFleb, SFltb.
  rewrite (SFcompare_antisym (Prim2SF x) (Prim2SF y)).
  destruct (SFcompare (Prim2SF x) (Prim2SF y)) as [[ | | ] | ]; simpl;
    try reflexivity; discriminate.
Qed.

Lemma Prim2SF_zero : Prim2SF 0%float = S754_zero false.
Proof. reflexivity. Qed.

Lemma Prim2SF_one :
  Prim2SF 1%float = S754_finite false 4503599627370496 (-52).
Proof. reflexivity. Qed.

Lemma above_one_not_below_zero (q : float64) :
  (1 <? q)%float = true -> (q <? 0)%float = false.
Proof.
  rewrite !FloatAxioms.ltb_spec, Prim2SF_zero, Prim2SF_one.
  unfold SFltb.
  destruct (Prim2SF q) as [s | s | | s m e]; simpl; try discriminate;
    destruct s; simpl; try discriminate; reflexivity.
Qed.

Lemma Prim2SF_nan_IsNaN (x : float64) :
  Prim2SF x = S754_nan -> IsNaN x = true.
Proof.
  intros E. unfold IsNaN, is_nan. rewrite FloatAxioms.eqb_spec, E. reflexivity.
Qed.

(** A not-a-number ratio makes the interpolated coordinate not-a-number. *)
Lemma nan_ratio_propagates (x r y : float64) :
  IsNaN r = true -> IsNaN (x + r * y)%float = true.
Proof.
  intros N. apply IsNaN_true in N. apply Prim2SF_nan_IsNaN.
  rewrite FloatAxioms.add_spec, FloatAxioms.mul_spec, N.
  unfold SF64add, SF64mul. simpl.
  destruct (Prim2SF x); reflexivity.
Qed.

(** [x - 0] is [x], for every float. *)
Lemma sub_zero_r (x : float64) : (x - 0)%float = x.
Proof.
  apply Prim2SF_inj. rewrite FloatAxioms.sub_spec, Prim2SF_zero.
  unfold SF64sub.
  destruct (Prim2SF x) as [s | s | | s m e]; try reflexivity.
  destruct s; reflexivity.
Qed.

(** ** The ratio and the interpolated point *)

Ltac split_ifs :=
  repeat match goal with
    | |- context [if ?b then _ else _] => destruct b eqn:?
    end.

Ltac float_consts :=
  try reflexivity; try assumption;
  try match goal with
    | H : ?b = true |- _ =>
        let v := eval vm_compute in b in
        match v with false => (vm_compute in H; discriminate H) end
    | H : ?b = false |- _ =>
        let v := eval vm_compute in b in
        match v with true => (vm_compute in H; discriminate H) end
    end.

Lemma computeRatio_not_below (t c d : float64) :
  (computeRatio t c d <? 0)%float = false.
Proof. unfold computeRatio; cbv zeta. split_ifs; float_consts. Qed.

Lemma computeRatio_not_above (t c d : float64) :
  (1 <? computeRatio t c d)%float = false.
Proof. unfold computeRatio; cbv zeta. split_ifs; float_consts. Qed.

Lemma computeRatio_no_division (t c d : float64) :
  (0 <? d)%float = false -> computeRatio t c d = 0%float.
Proof.
  intros D. unfold computeRatio; cbv zeta. rewrite D. reflexivity.
Qed.

Lemma computeRatio_zero_distance (t c d : float64) :
  (d =? 0)%float = true -> computeRatio t c d = 0%float.
Proof.
  intros D. apply computeRatio_no_division. apply eqb_not_ltb. exact D.
Qed.

Lemma computeRatio_nan (t c d : float64) :
  IsNaN (computeRatio t c d) = true ->
  (0 <? d)%float = true /\ computeRatio t c d = ((t - c) / d)%float.
Proof.
  unfold computeRatio; cbv zeta. split_ifs; intros N; float_consts;
    split; reflexivity.
Qed.

Lemma computeRatio_unit (t c d : float64) :
  IsNaN (computeRatio t c d) = false -> inUnitInterval (computeRatio t c d).
Proof.
  intros N. split.
  - apply not_ltb_leb; [exact N | reflexivity | apply computeRatio_not_below].
  - apply not_ltb_leb; [reflexivity | exact N | apply computeRatio_not_above].
Qed.

Lemma interpolatePoint_elevation (p1 p2 : GPXPoint) (ratio : float64) :
  Elevation (interpolatePoint p1 p2 ratio) =
  if Valid (Elevation p1) && Valid (Elevation p2) then
    NewNullableFloat64
      (Value (Elevation p1)
       + ratio * (Value (Elevation p2) - Value (Elevation p1)))%float
  else if Valid (Elevation p1) then NewNullableFloat64 (Value (Elevation p1))
  else if Valid (Elevation p2) then NewNullableFloat64 (Value (Elevation p2))
  else nullElevation.
Proof.
  unfold interpolatePoint.
  destruct (Valid (Elevation p1)), (Valid (Elevation p2)); simpl;
    split_ifs; reflexivity.
Qed.

Lemma interpolatePoint_position (p1 p2 : GPXPoint) (ratio : float64) :
  position (interpolatePoint p1 p2 ratio) =
  let newLat := (Latitude p1 + ratio * (Latitude p2 - Latitude p1))%float in
  let newLon := (Longitude p1 + ratio * (Longitude p2 - Longitude p1))%float in
  if IsNaN newLat || IsNaN newLon then position p1 else (newLat, newLon).
Proof.
  unfold interpolatePoint, position.
  destruct (Valid (Elevation p1)), (Valid (Elevation p2)); simpl;
    split_ifs; reflexivity.
Qed.

Lemma interpolatePoint_timestamp (p1 p2 : GPXPoint) (ratio : float64) :
  Timestamp (interpolatePoint p1 p2 ratio) = Timestamp p1.
Proof.
  unfold interpolatePoint.
  destruct (Valid (Elevation p1)), (Valid (Elevation p2)); simpl;
    split_ifs; reflexivity.
Qed.

(** The ratio of lines 110-117, case by case on the quotient. *)
Lemma computeRatio_cases (t c d : float64) :
  let quotient := ((t - c) / d)%float in
  ((0 <? d)%float = false -> computeRatio t c d = 0%float) /\
  ((0 <? d)%float = true ->
   ((quotient <? 0)%float = true -> computeRatio t c d = 0%float) /\
   ((1 <? quotient)%float = true -> computeRatio t c d = 1%float) /\
   ((0 <=? quotient)%float = true -> (quotient <=? 1)%float = true ->
    computeRatio t c d = quotient) /\
   (IsNaN quotient = true -> computeRatio t c d = quotient)).
Proof.
  cbv zeta. split; [apply computeRatio_no_division | ].
  intros D. unfold computeRatio. cbv zeta. rewrite D.
  split; [ | split; [ | split]].
  - intros Q. rewrite Q. reflexivity.
  - intros Q. rewrite (above_one_not_below_zero _ Q), Q. reflexivity.
  - intros Q0 Q1.
    rewrite (leb_not_ltb _ _ Q0), (leb_not_ltb _ _ Q1). reflexivity.
  - intros N. apply IsNaN_true in N.
    assert (L0 : ((t - c) / d <? 0)%float = false)
      by (rewrite FloatAxioms.ltb_spec, N; reflexivity).
    assert (L1 : (1 <? (t - c) / d)%float = false)
      by (rewrite FloatAxioms.ltb_spec, N; reflexivity).
    rewrite L0, L1. reflexivity.
Qed.

(** The position of the interpolated point, case by case on the quotient. *)
Lemma interpolatePoint_position_cases (p1 p2 : GPXPoint) (t c d : float64) :
  let quotient := ((t - c) / d)%float in
  let along := fun ratio : float64 =>
    let newLat := (Latitude p1 + ratio * (Latitude p2 - Latitude p1))%float in
    let newLon :=
      (Longitude p1 + ratio * (Longitude p2 - Longitude p1))%float in
    if IsNaN newLat || IsNaN newLon then position p1 else (newLat, newLon) in
  let p := interpolatePoint p1 p2 (computeRatio t c d) in
  ((0 <? d)%float = true ->
   (0 <=? quotient)%float = true -> (quotient <=? 1)%float = true ->
   position p = along quotient) /\
  ((0 <? d)%float = true -> (quotient <? 0)%float = true ->
   position p = along 0%float) /\
  ((0 <? d)%float = true -> (1 <? quotient)%float = true ->
   position p = along 1%float) /\
  ((0 <? d)%float = true -> IsNaN quotient = true ->
   position p = position p1) /\
  ((0 <? d)%float = false -> position p = along 0%float).
Proof.
  cbv zeta.
  destruct (computeRatio_cases t c d) as [Z P]. cbv zeta in P.
  rewrite interpolatePoint_position. cbv zeta.
  split; [ | split; [ | split; [ | split]]].
  - intros D Q0 Q1. destruct (P D) as [_ [_ [E _]]].
    rewrite (E Q0 Q1). reflexivity.
  - intros D Q. destruct (P D) as [E _]. rewrite (E Q). reflexivity.
  - intros D Q. destruct (P D) as [_ [E _]]. rewrite (E Q). reflexivity.
  - intros D N. destruct (P D) as [_ [_ [_ E]]]. rewrite (E N).
    rewrite (nan_ratio_propagates (Latitude p1) _ _ N). reflexivity.
  - intros D. rewrite (Z D). reflexivity.
Qed.

(** ** From the parsed file to the new GPX object *)

Lemma buildNormalized_few (Distance2D : GPXPoint -> GPXPoint -> float64)
  (Length2D : GPXTrackSegment -> float64) (inputFile : string)
  (gpxFile : GPX) (track : GPXTrack) (tracks : list GPXTrack)
  (segment : GPXTrackSegment) (segments : list GPXTrackSegment) :
  Tracks gpxFile = track :: tracks ->
  Segments track = segment :: segments ->
  List.length (Points segment) < 2 ->
  buildNormalized Distance2D Length2D inputFile gpxFile =
  Err (ErrNotEnoughPoints inputFile (List.length (Points segment))).
Proof.
  intros Ht Hs Hlen. unfold buildNormalized. rewrite Ht, Hs.
  destruct (List.length (Points segment) <? 2) eqn:G; [reflexivity | ].
  apply Nat.ltb_ge in G. lia.
Qed.

Lemma buildNormalized_enough (Distance2D : GPXPoint -> GPXPoint -> float64)
  (Length2D : GPXTrackSegment -> float64) (inputFile : string)
  (gpxFile : GPX) (track : GPXTrack) (tracks : list GPXTrack)
  (segment : GPXTrackSegment) (segments : list GPXTrackSegment) :
  Tracks gpxFile = track :: tracks ->
  Segments track = segment :: segments ->
  2 <= List.length (Points segment) ->
  exists pts,
    resample Distance2D Length2D segment = Ok pts /\
    List.length pts = numTargetPoints /\
    buildNormalized Distance2D Length2D inputFile gpxFile =
    Ok {| Creator := "gpx-normalizer";
          Version := Version gpxFile;
          Name := Name gpxFile;
          Description := Description gpxFile;
          AuthorName := AuthorName gpxFile;
          CopyrightAuthor := CopyrightAuthor gpxFile;
          CopyrightYear := CopyrightYear gpxFile;
          CopyrightLicense := CopyrightLicense gpxFile;
          Link := Link gpxFile;
          LinkText := LinkText gpxFile;
          Time := Time gpxFile;
          Keywords := Keywords gpxFile;
          Bounds := Bounds gpxFile;
          Extensions := Extensions gpxFile;
          Tracks := [ {| Segments := [ {| Points := pts |} ] |} ] |}.
Proof.
  intros Ht Hs Hlen.
  destruct (resample_total Distance2D Length2D segment Hlen) as [pts [E L]].
  exists pts. split; [exact E | ]. split; [exact L | ].
  unfold buildNormalized. rewrite Ht, Hs.
  destruct (List.length (Points segment) <? 2) eqn:G;
    [apply Nat.ltb_lt in G; lia | ].
  rewrite E. reflexivity.
Qed.

(** An error decided before the resampling leaves the file system as it
    was. *)
Lemma normalizeGPX_error (Distance2D : GPXPoint -> GPXPoint -> float64)
  (Length2D : GPXTrackSegment -> float64) (world : Type)
  (os_ReadFile : string -> world -> string + list Byte.byte)
  (gpx_ParseBytes : list Byte.byte -> string + GPX)
  (ToXml : GPX -> string + list Byte.byte)
  (os_WriteFile : string -> list Byte.byte -> world -> world * option string)
  (inputFile outputFile : string) (w : world) (gpxData : list Byte.byte)
  (gpxFile : GPX) (e : error) :
  os_ReadFile inputFile w = inr gpxData ->
  gpx_ParseBytes gpxData = inr gpxFile ->
  buildNormalized Distance2D Length2D inputFile gpxFile = Err e ->
  normalizeGPX Distance2D Length2D world os_ReadFile gpx_ParseBytes ToXml
    os_WriteFile inputFile outputFile w = (w, Err e).
Proof.
  intros Hr Hp Hb. unfold normalizeGPX. rewrite Hr, Hp, Hb. reflexivity.
Qed.

(** ** The bracket of an interior index *)

Section BracketFacts.

Variable Distance2D : GPXPoint -> GPXPoint -> float64.
Variable Length2D : GPXTrackSegment -> float64.

(** What iteration [i] locates, from the state the loop is in when the
    iteration starts. *)
Lemma bracketAt_spec (segment : GPXTrackSegment) (i : nat) :
  2 <= List.length (Points segment) ->
  exists st b,
    generalLoop Distance2D (Points segment) (intervalOf (Length2D segment)) i
      = Ok st /\
    cursorBefore Distance2D Length2D segment i = Ok (originalPointIndex st) /\
    bracketAt Distance2D Length2D segment i = Ok b /\
    originalPointIndex st <= bracketIndex b /\
    bracketIndex b + 2 <= List.length (Points segment) /\
    nth_error (Points segment) (bracketIndex b) = Some (bracketP1 b) /\
    nth_error (Points segment) (bracketIndex b + 1) = Some (bracketP2 b) /\
    bracketCum b =
      prefixDistance Distance2D (Points segment) (bracketIndex b) /\
    (bracketIndex b + 2 = List.length (Points segment) \/
     (bracketCum b + Distance2D (bracketP1 b) (bracketP2 b)
      <? targetDist Length2D segment i)%float = false).
Proof.
  intros Hlen.
  destruct (generalLoop_spec Distance2D (Points segment)
              (intervalOf (Length2D segment)) i Hlen) as [st [E [_ [Hb Hc]]]].
  destruct (locate_spec Distance2D (Points segment)
              (targetDist Length2D segment i)
              (cumulativeDistance st) (originalPointIndex st) Hb Hc)
    as [b [L P]].
  exists st, b. split; [exact E | ].
  split; [unfold cursorBefore; rewrite E; reflexivity | ].
  split; [unfold bracketAt; rewrite E; exact L | exact P].
Qed.

(** After an interior iteration the cursor is where the bracket is. *)
Lemma cursor_after_interior (segment : GPXTrackSegment) (i : nat)
  (b : bracket) :
  2 <= List.length (Points segment) ->
  0 < i -> i < numTargetPoints - 1 ->
  bracketAt Distance2D Length2D segment i = Ok b ->
  cursorBefore Distance2D Length2D segment (i + 1) = Ok (bracketIndex b).
Proof.
  intros Hlen Hi0 Hi1 Hb.
  destruct (generalLoop_spec Distance2D (Points segment)
              (intervalOf (Length2D segment)) i Hlen) as [st [E [_ Inv]]].
  destruct (loopBody_interior Distance2D (Points segment)
              (intervalOf (Length2D segment)) i st) as [b' [L B]];
    [exact Hi0 | lia | exact Inv | ].
  unfold bracketAt in Hb. rewrite E, bind_Ok in Hb.
  unfold targetDist in Hb. rewrite L in Hb. inversion Hb; subst b'.
  unfold cursorBefore. replace (i + 1) with (Datatypes.S i) by lia.
  rewrite generalLoop_step, E, bind_Ok, B. reflexivity.
Qed.

(** The cursor of an earlier iteration is not after that of a later one. *)
Lemma cursorBefore_mono (segment : GPXTrackSegment) (j i : nat) :
  2 <= List.length (Points segment) ->
  j <= i ->
  exists cj ci,
    cursorBefore Distance2D Length2D segment j = Ok cj /\
    cursorBefore Distance2D Length2D segment i = Ok ci /\
    cj <= ci.
Proof.
  intros Hlen Hji.
  destruct (generalLoop_spec Distance2D (Points segment)
              (intervalOf (Length2D segment)) j Hlen) as [sj [Ej _]].
  destruct (generalLoop_spec Distance2D (Points segment)
              (intervalOf (Length2D segment)) i Hlen) as [si [Ei _]].
  exists (originalPointIndex sj), (originalPointIndex si).
  unfold cursorBefore. rewrite Ej, Ei. repeat split.
  replace i with (j + (i - j)) in Ei by lia.
  apply (generalLoop_mono Distance2D (Points segment)
           (intervalOf (Length2D segment)) j (i - j) sj si Hlen Ej Ei).
Qed.

(** The interior output point, its bracket and its ratio. *)
Lemma interior_point (segment : GPXTrackSegment) (i : nat) :
  2 <= List.length (Points segment) ->
  (Length2D segment =? 0)%float = false ->
  0 < i -> i < numTargetPoints - 1 ->
  exists out b r,
    resample Distance2D Length2D segment = Ok out /\
    bracketAt Distance2D Length2D segment i = Ok b /\
    ratioAt Distance2D Length2D segment i = Ok r /\
    r = computeRatio (targetDist Length2D segment i) (bracketCum b)
          (Distance2D (bracketP1 b) (bracketP2 b)) /\
    nth_error out i = Some (interpolatePoint (bracketP1 b) (bracketP2 b) r) /\
    outputAt Distance2D Length2D segment i =
      Some (interpolatePoint (bracketP1 b) (bracketP2 b) r).
Proof.
  intros Hlen Hz Hi0 Hi1.
  destruct (interior_output Distance2D Length2D segment i Hlen Hz Hi0 Hi1)
    as [out [st [b [E [_ [_ [_ [B N]]]]]]]].
  exists out, b, (bracketRatio Distance2D (targetDist Length2D segment i) b).
  split; [exact E | ]. split; [exact B | ].
  split; [unfold ratioAt; rewrite B; reflexivity | ].
  split; [reflexivity | ]. split; [exact N | ].
  unfold outputAt. rewrite E. exact N.
Qed.

End BracketFacts.

(** A nil error means that the serialization of the new GPX object was
    written to the output file. *)
Lemma normalizeGPX_Ok_inv (Distance2D : GPXPoint -> GPXPoint -> float64)
  (Length2D : GPXTrackSegment -> float64) (world : Type)
  (os_ReadFile : string -> world -> string + list Byte.byte)
  (gpx_ParseBytes : list Byte.byte -> string + GPX)
  (ToXml : GPX -> string + list Byte.byte)
  (os_WriteFile : string -> list Byte.byte -> world -> world * option string)
  (inputFile outputFile : string) (w w' : world) :
  normalizeGPX Distance2D Length2D world os_ReadFile gpx_ParseBytes ToXml
    os_WriteFile inputFile outputFile w = (w', Ok tt) ->
  exists gpxData gpxFile newGpx xmlBytes,
    os_ReadFile inputFile w = inr gpxData /\
    gpx_ParseBytes gpxData = inr gpxFile /\
    buildNormalized Distance2D Length2D inputFile gpxFile = Ok newGpx /\
    ToXml newGpx = inr xmlBytes /\
    os_WriteFile outputFile xmlBytes w = (w', None).
Proof.
  unfold normalizeGPX.
  destruct (os_ReadFile inputFile w) as [c | gpxData] eqn:Hr;
    [intros H; inversion H | ].
  destruct (gpx_ParseBytes gpxData) as [c | gpxFile] eqn:Hp;
    [intros H; inversion H | ].
  destruct (buildNormalized Distance2D Length2D inputFile gpxFile)
    as [newGpx | e | ] eqn:Hb; try (intros H; inversion H; fail).
  destruct (ToXml newGpx) as [c | xmlBytes] eqn:Hx;
    [intros H; inversion H | ].
  destruct (os_WriteFile outputFile xmlBytes w) as [w1 [c | ]] eqn:Hw;
    intros H; inversion H; subst.
  exists gpxData, gpxFile, newGpx, xmlBytes. repeat split; assumption.
Qed.

(** ** The claims *)

(** C1. Exact count: for every parsed file whose first segment of its first
    track has at least two points, [normalizeGPX]'s resampling succeeds and
    the new GPX object holds one track with one segment of exactly
    [numTargetPoints] = 1000 points, in the zero-length branch and in the
    general branch alike; and whenever [normalizeGPX] returns a nil error on
    that file, what it has written is the serialization of that object. *)
Theorem resample_exact_count
  (Distance2D : GPXPoint -> GPXPoint -> float64)
  (Length2D : GPXTrackSegment -> float64) (inputFile : string)
  (gpxFile : GPX) (track : GPXTrack) (tracks : list GPXTrack)
  (segment : GPXTrackSegment) (segments : list GPXTrackSegment) :
  Tracks gpxFile = track :: tracks ->
  Segments track = segment :: segments ->
  2 <= List.length (Points segment) ->
  exists newGpx pts,
    buildNormalized Distance2D Length2D inputFile gpxFile = Ok newGpx /\
    resample Distance2D Length2D segment = Ok pts /\
    Tracks newGpx = [ {| Segments := [ {| Points := pts |} ] |} ] /\
    List.length pts = numTargetPoints /\
    numTargetPoints = 1000 /\
    forall (world : Type)
      (os_ReadFile : string -> world -> string + list Byte.byte)
      (gpx_ParseBytes : list Byte.byte -> string + GPX)
      (ToXml : GPX -> string + list Byte.byte)
      (os_WriteFile :
         string -> list Byte.byte -> world -> world * option string)
      (outputFile : string) (w w' : world) (gpxData : list Byte.byte),
      os_ReadFile inputFile w = inr gpxData ->
      gpx_ParseBytes gpxData = inr gpxFile ->
      normalizeGPX Distance2D Length2D world os_ReadFile gpx_ParseBytes ToXml
        os_WriteFile inputFile outputFile w = (w', Ok tt) ->
      exists xmlBytes,
        ToXml newGpx = inr xmlBytes /\
        os_WriteFile outputFile xmlBytes w = (w', None).
Proof.
  intros Ht Hs Hlen.
  destruct (buildNormalized_enough Distance2D Length2D inputFile gpxFile
              track tracks segment segments Ht Hs Hlen) as [pts [E [L B]]].
  eexists; exists pts. split; [exact B | ]. split; [exact E | ].
  split; [reflexivity | ]. split; [exact L | ]. split; [reflexivity | ].
  intros world os_ReadFile gpx_ParseBytes ToXml os_WriteFile outputFile w w'
    gpxData Hr Hp Hn.
  destruct (normalizeGPX_Ok_inv _ _ _ _ _ _ _ _ _ _ _ Hn)
    as [gpxData' [gpxFile' [newGpx' [xmlBytes [Hr' [Hp' [Hb' [Hx Hw]]]]]]]].
  rewrite Hr in Hr'. inversion Hr'; subst gpxData'.
  rewrite Hp in Hp'. inversion Hp'; subst gpxFile'.
  rewrite B in Hb'. inversion Hb'; subst newGpx'.
  exists xmlBytes. split; assumption.
Qed.

Lemma resample_exact_count_witness :
  exists newGpx pts,
    buildNormalized planarDistance2D planarLength2D "ride.gpx" straightGpx
      = Ok newGpx /\
    resample planarDistance2D planarLength2D straightSegment = Ok pts /\
    Tracks newGpx = [ {| Segments := [ {| Points := pts |} ] |} ] /\
    List.length pts = numTargetPoints /\
    numTargetPoints = 1000.
Proof.
  destruct (resample_exact_count planarDistance2D planarLength2D "ride.gpx"
              straightGpx {| Segments := [straightSegment] |} []
              straightSegment [] eq_refl eq_refl)
    as [newGpx [pts [B [E [T [L [N _]]]]]]]; [simpl; lia | ].
  exists newGpx, pts. repeat split; assumption.
Defined.

(** C2, as the code has it. The first output point is the first input point.
    The last output point is the last input point when the total length is
    not zero; when the total length is zero the last output point is a copy
    of the first input point. *)
Theorem endpoints_preserved_by_branch
  (Distance2D : GPXPoint -> GPXPoint -> float64)
  (Length2D : GPXTrackSegment -> float64) (segment : GPXTrackSegment) :
  2 <= List.length (Points segment) ->
  exists out first last,
    resample Distance2D Length2D segment = Ok out /\
    nth_error (Points segment) 0 = Some first /\
    lastPoint (Points segment) = Some last /\
    nth_error out 0 = Some first /\
    ((Length2D segment =? 0)%float = false -> lastPoint out = Some last) /\
    ((Length2D segment =? 0)%float = true -> lastPoint out = Some first).
Proof.
  intros Hlen.
  destruct (Length2D segment =? 0)%float eqn:Hz.
  - destruct (resample_zero Distance2D Length2D segment) as [first [Nf E]];
      [lia | exact Hz | ].
    destruct (index_Ok (Points segment) (List.length (Points segment) - 1))
      as [last [_ Nl]]; [lia | ].
    exists (repeat first numTargetPoints), first, last.
    split; [exact E | ]. split; [exact Nf | ]. split; [exact Nl | ].
    split; [ | split; [discriminate | intros _]].
    + apply nth_error_repeat. apply numTargetPoints_pos.
    + unfold lastPoint. rewrite repeat_length.
      apply nth_error_repeat. apply numTargetPoints_pred_lt.
  - destruct (endpoints_general Distance2D Length2D segment Hlen Hz)
      as [out [first [last [E [Nf [Nl [Of Ol]]]]]]].
    exists out, first, last.
    split; [exact E | ]. split; [exact Nf | ]. split; [exact Nl | ].
    split; [exact Of | ]. split; [intros _; exact Ol | discriminate].
Qed.

Lemma endpoints_preserved_by_branch_witness :
  exists out first last,
    resample planarDistance2D planarLength2D straightSegment = Ok out /\
    nth_error (Points straightSegment) 0 = Some first /\
    lastPoint (Points straightSegment) = Some last /\
    nth_error out 0 = Some first /\
    ((planarLength2D straightSegment =? 0)%float = false ->
     lastPoint out = Some last) /\
    ((planarLength2D straightSegment =? 0)%float = true ->
     lastPoint out = Some first).
Proof.
  apply (endpoints_preserved_by_branch planarDistance2D planarLength2D
           straightSegment).
  simpl; lia.
Defined.

(** C2, as stated, fails: the two points of [underflowSegment] differ, their
    planar distance is zero, the output is 1000 copies of the first, and the
    last output position is not the last input position. *)
Lemma endpoint_last_not_preserved_zero_length :
  2 <= List.length (Points underflowSegment) /\
  exists out p q,
    resample planarDistance2D planarLength2D underflowSegment = Ok out /\
    lastPoint out = Some p /\
    lastPoint (Points underflowSegment) = Some q /\
    position p <> position q.
Proof.
  split; [simpl; lia | ].
  exists (repeat (pt 0 0) numTargetPoints), (pt 0 0), (pt 0x1p-600 0).
  split; [vm_compute; reflexivity | ].
  split; [vm_compute; reflexivity | ].
  split; [reflexivity | ].
  intros H.
  apply (f_equal (fun x => (fst x =? 0)%float)) in H.
  vm_compute in H. discriminate H.
Qed.

(** C3. Degenerate path: when the total 2D length is exactly 0, the output is
    [numTargetPoints] copies of the first input point, so every output point
    has its latitude, longitude, elevation validity and elevation value. *)
Theorem zero_length_copies_first_point
  (Distance2D : GPXPoint -> GPXPoint -> float64)
  (Length2D : GPXTrackSegment -> float64) (segment : GPXTrackSegment) :
  2 <= List.length (Points segment) ->
  (Length2D segment =? 0)%float = true ->
  exists first,
    nth_error (Points segment) 0 = Some first /\
    resample Distance2D Length2D segment = Ok (repeat first numTargetPoints) /\
    forall i, i < numTargetPoints ->
      exists p,
        outputAt Distance2D Length2D segment i = Some p /\
        p = first /\
        Latitude p = Latitude first /\
        Longitude p = Longitude first /\
        Valid (Elevation p) = Valid (Elevation first) /\
        Value (Elevation p) = Value (Elevation first).
Proof.
  intros Hlen Hz.
  destruct (resample_zero Distance2D Length2D segment) as [first [Nf E]];
    [lia | exact Hz | ].
  exists first. split; [exact Nf | ]. split; [exact E | ].
  intros i Hi. exists first. unfold outputAt. rewrite E.
  split; [apply nth_error_repeat; exact Hi | ].
  repeat split.
Qed.

Lemma zero_length_copies_first_point_witness :
  exists first,
    nth_error (Points coincidentSegment) 0 = Some first /\
    resample planarDistance2D planarLength2D coincidentSegment
      = Ok (repeat first numTargetPoints) /\
    forall i, i < numTargetPoints ->
      exists p,
        outputAt planarDistance2D planarLength2D coincidentSegment i = Some p /\
        p = first /\
        Latitude p = Latitude first /\
        Longitude p = Longitude first /\
        Valid (Elevation p) = Valid (Elevation first) /\
        Value (Elevation p) = Value (Elevation first).
Proof.
  apply (zero_length_copies_first_point planarDistance2D planarLength2D
           coincidentSegment);
    [simpl; lia | reflexivity].
Defined.

(** C4. Insufficient input: with a first track and a first segment present,
    the function returns the not-enough-points error if and only if that
    segment has fewer than 2 points; it then returns before anything is
    written, so the file system is unchanged, whatever the collaborators are;
    and every segment of 2 or more points passes the check and is resampled
    successfully. *)
Theorem insufficient_points_iff
  (Distance2D : GPXPoint -> GPXPoint -> float64)
  (Length2D : GPXTrackSegment -> float64) (inputFile : string)
  (gpxFile : GPX) (track : GPXTrack) (tracks : list GPXTrack)
  (segment : GPXTrackSegment) (segments : list GPXTrackSegment) :
  Tracks gpxFile = track :: tracks ->
  Segments track = segment :: segments ->
  ((exists found,
       buildNormalized Distance2D Length2D inputFile gpxFile =
       Err (ErrNotEnoughPoints inputFile found))
   <-> List.length (Points segment) < 2) /\
  (List.length (Points segment) < 2 ->
   buildNormalized Distance2D Length2D inputFile gpxFile =
   Err (ErrNotEnoughPoints inputFile (List.length (Points segment))) /\
   forall (world : Type)
     (os_ReadFile : string -> world -> string + list Byte.byte)
     (gpx_ParseBytes : list Byte.byte -> string + GPX)
     (ToXml : GPX -> string + list Byte.byte)
     (os_WriteFile :
        string -> list Byte.byte -> world -> world * option string)
     (outputFile : string) (w : world) (gpxData : list Byte.byte),
     os_ReadFile inputFile w = inr gpxData ->
     gpx_ParseBytes gpxData = inr gpxFile ->
     normalizeGPX Distance2D Length2D world os_ReadFile gpx_ParseBytes ToXml
       os_WriteFile inputFile outputFile w =
     (w, Err (ErrNotEnoughPoints inputFile (List.length (Points segment))))) /\
  (2 <= List.length (Points segment) ->
   exists newGpx pts,
     buildNormalized Distance2D Length2D inputFile gpxFile = Ok newGpx /\
     resample Distance2D Length2D segment = Ok pts).
Proof.
  intros Ht Hs.
  assert (Few : List.length (Points segment) < 2 ->
                buildNormalized Distance2D Length2D inputFile gpxFile =
                Err (ErrNotEnoughPoints inputFile
                       (List.length (Points segment)))).
  { apply buildNormalized_few with (1 := Ht) (2 := Hs). }
  assert (Enough : 2 <= List.length (Points segment) ->
                   exists newGpx pts,
                     buildNormalized Distance2D Length2D inputFile gpxFile
                       = Ok newGpx /\
                     resample Distance2D Length2D segment = Ok pts).
  { intros Hlen.
    destruct (buildNormalized_enough Distance2D Length2D inputFile gpxFile
                track tracks segment segments Ht Hs Hlen) as [pts [E [_ B]]].
    eexists; exists pts. split; [exact B | exact E]. }
  split; [split | split].
  - intros [found E].
    destruct (Nat.lt_ge_cases (List.length (Points segment)) 2) as [H | H];
      [exact H | ].
    destruct (Enough H) as [newGpx [pts [B _]]].
    rewrite B in E. discriminate E.
  - intros H. eexists. apply Few. exact H.
  - intros H. split; [apply Few; exact H | ].
    intros world os_ReadFile gpx_ParseBytes ToXml os_WriteFile outputFile w
      gpxData Hr Hp.
    apply normalizeGPX_error with (1 := Hr) (2 := Hp). apply Few. exact H.
  - exact Enough.
Qed.

Lemma insufficient_points_iff_witness :
  buildNormalized planarDistance2D planarLength2D "one_point.gpx" onePointGpx
  = Err (ErrNotEnoughPoints "one_point.gpx" 1).
Proof.
  apply (insufficient_points_iff planarDistance2D planarLength2D
           "one_point.gpx" onePointGpx
           {| Segments := [ {| Points := [pt 5 5] |} ] |} []
           {| Points := [pt 5 5] |} []);
    [reflexivity | reflexivity | simpl; lia].
Defined.

(** C5. Cursor safety: at every interior output index the cursor loop ends
    without a panic; the cursor it leaves is not before the cursor it found,
    is at most [len(sourcePoints) - 2], and is the cursor the next iteration
    starts from; every earlier iteration started from a cursor that is not
    after it; and [sourcePoints[originalPointIndex]] and
    [sourcePoints[originalPointIndex + 1]] exist and are [p1] and [p2]. *)
Theorem cursor_monotone_in_bounds
  (Distance2D : GPXPoint -> GPXPoint -> float64)
  (Length2D : GPXTrackSegment -> float64) (segment : GPXTrackSegment)
  (i : nat) :
  2 <= List.length (Points segment) ->
  0 < i -> i < numTargetPoints - 1 ->
  exists c b,
    cursorBefore Distance2D Length2D segment i = Ok c /\
    bracketAt Distance2D Length2D segment i = Ok b /\
    c <= bracketIndex b /\
    bracketIndex b <= List.length (Points segment) - 2 /\
    nth_error (Points segment) (bracketIndex b) = Some (bracketP1 b) /\
    nth_error (Points segment) (bracketIndex b + 1) = Some (bracketP2 b) /\
    cursorBefore Distance2D Length2D segment (i + 1) = Ok (bracketIndex b) /\
    forall j, j <= i ->
      exists cj,
        cursorBefore Distance2D Length2D segment j = Ok cj /\ cj <= c.
Proof.
  intros Hlen Hi0 Hi1.
  destruct (bracketAt_spec Distance2D Length2D segment i Hlen)
    as [st [b [_ [C [B [M [Hb [N1 [N2 _]]]]]]]]].
  exists (originalPointIndex st), b.
  split; [exact C | ]. split; [exact B | ]. split; [exact M | ].
  split; [lia | ]. split; [exact N1 | ]. split; [exact N2 | ].
  split; [apply cursor_after_interior; assumption | ].
  intros j Hj.
  destruct (cursorBefore_mono Distance2D Length2D segment j i Hlen Hj)
    as [cj [ci [Ej [Ei Hle]]]].
  rewrite C in Ei. inversion Ei; subst ci.
  exists cj. split; [exact Ej | exact Hle].
Qed.

Lemma cursor_monotone_in_bounds_witness :
  exists c b,
    cursorBefore planarDistance2D planarLength2D outAndBackSegment 500 = Ok c /\
    bracketAt planarDistance2D planarLength2D outAndBackSegment 500 = Ok b /\
    c <= bracketIndex b /\
    bracketIndex b <= List.length (Points outAndBackSegment) - 2 /\
    nth_error (Points outAndBackSegment) (bracketIndex b)
      = Some (bracketP1 b) /\
    nth_error (Points outAndBackSegment) (bracketIndex b + 1)
      = Some (bracketP2 b) /\
    cursorBefore planarDistance2D planarLength2D outAndBackSegment (500 + 1)
      = Ok (bracketIndex b) /\
    forall j, j <= 500 ->
      exists cj,
        cursorBefore planarDistance2D planarLength2D outAndBackSegment j
          = Ok cj /\ cj <= c.
Proof.
  apply (cursor_monotone_in_bounds planarDistance2D planarLength2D
           outAndBackSegment 500);
    [simpl; lia | lia | unfold numTargetPoints; lia].
Defined.

(** C6, as the code has it. At every interior output index the ratio is
    never below 0 and never above 1; it lies in [[0, 1]] unless it is
    not-a-number, which happens only when [dist(p1,p2) > 0] holds and the
    quotient [(targetDist - cumulativeToP1) / dist(p1,p2)] itself is
    not-a-number; the quotient is used only when [dist(p1,p2) > 0], and the
    ratio is 0 whenever that test fails, in particular when
    [dist(p1,p2) == 0]. *)
Theorem ratio_clamped_unless_nan
  (Distance2D : GPXPoint -> GPXPoint -> float64)
  (Length2D : GPXTrackSegment -> float64) (segment : GPXTrackSegment)
  (i : nat) :
  2 <= List.length (Points segment) ->
  (Length2D segment =? 0)%float = false ->
  0 < i -> i < numTargetPoints - 1 ->
  exists b r,
    bracketAt Distance2D Length2D segment i = Ok b /\
    ratioAt Distance2D Length2D segment i = Ok r /\
    outputAt Distance2D Length2D segment i =
      Some (interpolatePoint (bracketP1 b) (bracketP2 b) r) /\
    let targetDistForCurrentPoint := targetDist Length2D segment i in
    let distToP1 := bracketCum b in
    let distP1P2 := Distance2D (bracketP1 b) (bracketP2 b) in
    (r <? 0)%float = false /\
    (1 <? r)%float = false /\
    (IsNaN r = false -> inUnitInterval r) /\
    (IsNaN r = true ->
     (0 <? distP1P2)%float = true /\
     r = ((targetDistForCurrentPoint - distToP1) / distP1P2)%float) /\
    ((0 <? distP1P2)%float = false -> r = 0%float) /\
    ((distP1P2 =? 0)%float = true -> r = 0%float).
Proof.
  intros Hlen Hz Hi0 Hi1.
  destruct (interior_point Distance2D Length2D segment i Hlen Hz Hi0 Hi1)
    as [out [b [r [_ [B [R [Er [_ O]]]]]]]].
  exists b, r. split; [exact B | ]. split; [exact R | ]. split; [exact O | ].
  cbv zeta. rewrite Er.
  split; [apply computeRatio_not_below | ].
  split; [apply computeRatio_not_above | ].
  split; [apply computeRatio_unit | ].
  split; [apply computeRatio_nan | ].
  split; [apply computeRatio_no_division | apply computeRatio_zero_distance].
Qed.

Lemma ratio_clamped_unless_nan_witness :
  exists b r,
    bracketAt planarDistance2D planarLength2D straightSegment 1 = Ok b /\
    ratioAt planarDistance2D planarLength2D straightSegment 1 = Ok r /\
    outputAt planarDistance2D planarLength2D straightSegment 1 =
      Some (interpolatePoint (bracketP1 b) (bracketP2 b) r) /\
    let targetDistForCurrentPoint :=
      targetDist planarLength2D straightSegment 1 in
    let distToP1 := bracketCum b in
    let distP1P2 := planarDistance2D (bracketP1 b) (bracketP2 b) in
    (r <? 0)%float = false /\
    (1 <? r)%float = false /\
    (IsNaN r = false -> inUnitInterval r) /\
    (IsNaN r = true ->
     (0 <? distP1P2)%float = true /\
     r = ((targetDistForCurrentPoint - distToP1) / distP1P2)%float) /\
    ((0 <? distP1P2)%float = false -> r = 0%float) /\
    ((distP1P2 =? 0)%float = true -> r = 0%float).
Proof.
  apply (ratio_clamped_unless_nan planarDistance2D planarLength2D
           straightSegment 1);
    [simpl; lia | reflexivity | lia | unfold numTargetPoints; lia].
Defined.

(** C6, as stated, fails: on [nanSegment] the total length is not-a-number,
    so is every target distance, the first pair has length 1 > 0, and the
    ratio of output index 1 is not-a-number, which neither clamp catches. *)
Lemma ratio_outside_unit_interval_on_nan :
  2 <= List.length (Points nanSegment) /\
  (planarLength2D nanSegment =? 0)%float = false /\
  exists r,
    ratioAt planarDistance2D planarLength2D nanSegment 1 = Ok r /\
    ~ inUnitInterval r.
Proof.
  split; [simpl; lia | ]. split; [reflexivity | ].
  exists PrimFloat.nan. split; [vm_compute; reflexivity | ].
  intros [H _]. vm_compute in H. discriminate H.
Qed.

(** C7. Elevation policy: for every interior output point with bracketing
    source points [p1] and [p2]: both elevations valid, the output elevation
    is [p1.ele + ratio * (p2.ele - p1.ele)] and valid; only [p1]'s valid, it
    is [p1]'s value and valid; only [p2]'s valid, it is [p2]'s value and
    valid; neither valid, the output has the zero elevation, marked invalid. *)
Theorem elevation_policy
  (Distance2D : GPXPoint -> GPXPoint -> float64)
  (Length2D : GPXTrackSegment -> float64) (segment : GPXTrackSegment)
  (i : nat) :
  2 <= List.length (Points segment) ->
  (Length2D segment =? 0)%float = false ->
  0 < i -> i < numTargetPoints - 1 ->
  exists b ratio p,
    bracketAt Distance2D Length2D segment i = Ok b /\
    ratioAt Distance2D Length2D segment i = Ok ratio /\
    outputAt Distance2D Length2D segment i = Some p /\
    let e1 := Elevation (bracketP1 b) in
    let e2 := Elevation (bracketP2 b) in
    (Valid e1 = true -> Valid e2 = true ->
     Elevation p =
     {| Float64 := (Value e1 + ratio * (Value e2 - Value e1))%float;
        Valid := true |}) /\
    (Valid e1 = true -> Valid e2 = false ->
     Elevation p = {| Float64 := Value e1; Valid := true |}) /\
    (Valid e1 = false -> Valid e2 = true ->
     Elevation p = {| Float64 := Value e2; Valid := true |}) /\
    (Valid e1 = false -> Valid e2 = false ->
     Elevation p = nullElevation /\ Valid (Elevation p) = false).
Proof.
  intros Hlen Hz Hi0 Hi1.
  destruct (interior_point Distance2D Length2D segment i Hlen Hz Hi0 Hi1)
    as [out [b [r [_ [B [R [_ [_ O]]]]]]]].
  exists b, r, (interpolatePoint (bracketP1 b) (bracketP2 b) r).
  split; [exact B | ]. split; [exact R | ]. split; [exact O | ].
  cbv zeta. rewrite interpolatePoint_elevation.
  split; [ | split; [ | split]]; intros V1 V2; rewrite V1, V2;
    try split; reflexivity.
Qed.

Lemma elevation_policy_witness :
  exists b ratio p,
    bracketAt planarDistance2D planarLength2D straightSegment 1 = Ok b /\
    ratioAt planarDistance2D planarLength2D straightSegment 1 = Ok ratio /\
    outputAt planarDistance2D planarLength2D straightSegment 1 = Some p /\
    let e1 := Elevation (bracketP1 b) in
    let e2 := Elevation (bracketP2 b) in
    (Valid e1 = true -> Valid e2 = true ->
     Elevation p =
     {| Float64 := (Value e1 + ratio * (Value e2 - Value e1))%float;
        Valid := true |}) /\
    (Valid e1 = true -> Valid e2 = false ->
     Elevation p = {| Float64 := Value e1; Valid := true |}) /\
    (Valid e1 = false -> Valid e2 = true ->
     Elevation p = {| Float64 := Value e2; Valid := true |}) /\
    (Valid e1 = false -> Valid e2 = false ->
     Elevation p = nullElevation /\ Valid (Elevation p) = false).
Proof.
  apply (elevation_policy planarDistance2D planarLength2D straightSegment 1);
    [simpl; lia | reflexivity | lia | unfold numTargetPoints; lia].
Defined.

(** C8. Not-a-number fallback: at every interior output index, if the
    interpolated latitude or longitude is not-a-number the output position
    is [p1]'s latitude and longitude, otherwise it is the interpolated
    pair; so an output latitude (longitude) is not-a-number only if [p1]'s
    latitude (longitude) is. *)
Theorem nan_position_fallback
  (Distance2D : GPXPoint -> GPXPoint -> float64)
  (Length2D : GPXTrackSegment -> float64) (segment : GPXTrackSegment)
  (i : nat) :
  2 <= List.length (Points segment) ->
  (Length2D segment =? 0)%float = false ->
  0 < i -> i < numTargetPoints - 1 ->
  exists b ratio p,
    bracketAt Distance2D Length2D segment i = Ok b /\
    ratioAt Distance2D Length2D segment i = Ok ratio /\
    outputAt Distance2D Length2D segment i = Some p /\
    let p1 := bracketP1 b in
    let p2 := bracketP2 b in
    let newLat :=
      (Latitude p1 + ratio * (Latitude p2 - Latitude p1))%float in
    let newLon :=
      (Longitude p1 + ratio * (Longitude p2 - Longitude p1))%float in
    (IsNaN newLat = true \/ IsNaN newLon = true ->
     Latitude p = Latitude p1 /\ Longitude p = Longitude p1) /\
    (IsNaN newLat = false -> IsNaN newLon = false ->
     Latitude p = newLat /\ Longitude p = newLon) /\
    (IsNaN (Latitude p) = true -> IsNaN (Latitude p1) = true) /\
    (IsNaN (Longitude p) = true -> IsNaN (Longitude p1) = true).
Proof.
  intros Hlen Hz Hi0 Hi1.
  destruct (interior_point Distance2D Length2D segment i Hlen Hz Hi0 Hi1)
    as [out [b [r [_ [B [R [_ [_ O]]]]]]]].
  exists b, r, (interpolatePoint (bracketP1 b) (bracketP2 b) r).
  split; [exact B | ]. split; [exact R | ]. split; [exact O | ].
  cbv zeta.
  pose proof (interpolatePoint_position (bracketP1 b) (bracketP2 b) r) as P.
  cbv zeta in P. unfold position in P.
  destruct (IsNaN (Latitude (bracketP1 b)
                   + r * (Latitude (bracketP2 b)
                          - Latitude (bracketP1 b)))%float) eqn:NLat;
  destruct (IsNaN (Longitude (bracketP1 b)
                   + r * (Longitude (bracketP2 b)
                          - Longitude (bracketP1 b)))%float) eqn:NLon;
  simpl in P; inversion P as [[PLat PLon]]; rewrite PLat, PLon;
  repeat split; try reflexivity; try discriminate; try tauto;
  try match goal with
      | H : _ \/ _ |- _ => destruct H as [H | H]; discriminate H
      end;
  try (intros H; rewrite NLat in H; discriminate H);
  try (intros H; rewrite NLon in H; discriminate H).
Qed.

Lemma nan_position_fallback_witness :
  exists b ratio p,
    bracketAt planarDistance2D planarLength2D nanSegment 1 = Ok b /\
    ratioAt planarDistance2D planarLength2D nanSegment 1 = Ok ratio /\
    outputAt planarDistance2D planarLength2D nanSegment 1 = Some p /\
    let p1 := bracketP1 b in
    let p2 := bracketP2 b in
    let newLat :=
      (Latitude p1 + ratio * (Latitude p2 - Latitude p1))%float in
    let newLon :=
      (Longitude p1 + ratio * (Longitude p2 - Longitude p1))%float in
    IsNaN ratio = true /\
    (IsNaN newLat = true \/ IsNaN newLon = true) /\
    Latitude p = Latitude p1 /\ Longitude p = Longitude p1 /\
    IsNaN (Latitude p) = false /\ IsNaN (Longitude p) = false.
Proof.
  destruct (nan_position_fallback planarDistance2D planarLength2D
              nanSegment 1) as [b [r [p [B [R [O H]]]]]];
    [simpl; lia | reflexivity | lia | unfold numTargetPoints; lia | ].
  assert (Hb : b = {| bracketCum := 0%float; bracketIndex := 0;
                      bracketP1 := pt 0 0; bracketP2 := pt 0 1 |}).
  { vm_compute in B. inversion B. reflexivity. }
  assert (Hr : r = PrimFloat.nan).
  { vm_compute in R. inversion R. reflexivity. }
  cbv zeta in H. destruct H as [F _].
  assert (N : IsNaN (Latitude (bracketP1 b)
                     + r * (Latitude (bracketP2 b)
                            - Latitude (bracketP1 b)))%float = true
              \/ IsNaN (Longitude (bracketP1 b)
                        + r * (Longitude (bracketP2 b)
                               - Longitude (bracketP1 b)))%float = true).
  { left. rewrite Hb, Hr. reflexivity. }
  destruct (F N) as [PLat PLon].
  exists b, r, p. split; [exact B | ]. split; [exact R | ].
  split; [exact O | ]. cbv zeta.
  split; [rewrite Hr; reflexivity | ]. split; [exact N | ].
  split; [exact PLat | ]. split; [exact PLon | ].
  rewrite PLat, PLon, Hb. split; reflexivity.
Defined.




(** C10. Header metadata: for every input that is processed successfully,
    the new GPX object has the creator "gpx-normalizer", whatever the input's
    creator, and the version, name, description, author name, copyright
    author, year and license, link, link text, time, keywords, bounds and
    extensions of the input. *)
Theorem metadata_copied_creator_fixed
  (Distance2D : GPXPoint -> GPXPoint -> float64)
  (Length2D : GPXTrackSegment -> float64) (inputFile : string)
  (gpxFile newGpx : GPX) :
  buildNormalized Distance2D Length2D inputFile gpxFile = Ok newGpx ->
  Creator newGpx = "gpx-normalizer"%string /\
  Version newGpx = Version gpxFile /\
  Name newGpx = Name gpxFile /\
  Description newGpx = Description gpxFile /\
  AuthorName newGpx = AuthorName gpxFile /\
  CopyrightAuthor newGpx = CopyrightAuthor gpxFile /\
  CopyrightYear newGpx = CopyrightYear gpxFile /\
  CopyrightLicense newGpx = CopyrightLicense gpxFile /\
  Link newGpx = Link gpxFile /\
  LinkText newGpx = LinkText gpxFile /\
  Time newGpx = Time gpxFile /\
  Keywords newGpx = Keywords gpxFile /\
  Bounds newGpx = Bounds gpxFile /\
  Extensions newGpx = Extensions gpxFile.
Proof.
  unfold buildNormalized.
  destruct (Tracks gpxFile) as [ | track tracks]; [discriminate | ].
  destruct (Segments track) as [ | segment segments]; [discriminate | ].
  destruct (List.length (Points segment) <? 2); [discriminate | ].
  destruct (resample Distance2D Length2D segment) as [pts | e | ];
    simpl; intros H; inversion H; subst; clear H.
  repeat split.
Qed.

Lemma metadata_copied_creator_fixed_witness :
  Creator straightNormalized = "gpx-normalizer"%string /\
  Version straightNormalized = Version straightGpx /\
  Name straightNormalized = Name straightGpx /\
  Description straightNormalized = Description straightGpx /\
  AuthorName straightNormalized = AuthorName straightGpx /\
  CopyrightAuthor straightNormalized = CopyrightAuthor straightGpx /\
  CopyrightYear straightNormalized = CopyrightYear straightGpx /\
  CopyrightLicense straightNormalized = CopyrightLicense straightGpx /\
  Link straightNormalized = Link straightGpx /\
  LinkText straightNormalized = LinkText straightGpx /\
  Time straightNormalized = Time straightGpx /\
  Keywords straightNormalized = Keywords straightGpx /\
  Bounds straightNormalized = Bounds straightGpx /\
  Extensions straightNormalized = Extensions straightGpx.
Proof.
  apply (metadata_copied_creator_fixed planarDistance2D planarLength2D
           "ride.gpx" straightGpx straightNormalized).
  vm_compute. reflexivity.
Defined.

(** ** Further properties of [normalizeGPX] *)

Lemma buildNormalized_newGpxFor
  (Distance2D : GPXPoint -> GPXPoint -> float64)
  (Length2D : GPXTrackSegment -> float64) (inputFile : string)
  (gpxFile : GPX) (track : GPXTrack) (tracks : list GPXTrack)
  (segment : GPXTrackSegment) (segments : list GPXTrackSegment) :
  Tracks gpxFile = track :: tracks ->
  Segments track = segment :: segments ->
  2 <= List.length (Points segment) ->
  exists pts,
    resample Distance2D Length2D segment = Ok pts /\
    List.length pts = numTargetPoints /\
    buildNormalized Distance2D Length2D inputFile gpxFile =
    Ok (newGpxFor gpxFile pts).
Proof.
  intros Ht Hs Hlen.
  destruct (buildNormalized_enough Distance2D Length2D inputFile gpxFile
              track tracks segment segments Ht Hs Hlen) as [pts [E [L B]]].
  exists pts. split; [exact E | ]. split; [exact L | exact B].
Qed.

(** Every error of the part between parsing and serialization is one of
    the three of lines 26-40, with its cause. *)
Lemma buildNormalized_Err_inv
  (Distance2D : GPXPoint -> GPXPoint -> float64)
  (Length2D : GPXTrackSegment -> float64) (inputFile : string)
  (gpxFile : GPX) (e : error) :
  buildNormalized Distance2D Length2D inputFile gpxFile = Err e ->
  (Tracks gpxFile = [] /\ e = ErrNoTracks inputFile) \/
  (exists track tracks,
      Tracks gpxFile = track :: tracks /\ Segments track = [] /\
      e = ErrNoSegments inputFile) \/
  (exists track tracks segment segments,
      Tracks gpxFile = track :: tracks /\
      Segments track = segment :: segments /\
      List.length (Points segment) < 2 /\
      e = ErrNotEnoughPoints inputFile (List.length (Points segment))).
Proof.
  intros H.
  destruct (Tracks gpxFile) as [ | track tracks] eqn:Ht.
  - unfold buildNormalized in H. rewrite Ht in H. inversion H.
    left. split; reflexivity.
  - right.
    destruct (Segments track) as [ | segment segments] eqn:Hs.
    + unfold buildNormalized in H. rewrite Ht, Hs in H. inversion H.
      left. exists track, tracks. repeat split; assumption.
    + right. exists track, tracks, segment, segments.
      destruct (Nat.lt_ge_cases (List.length (Points segment)) 2)
        as [Hl | Hl].
      * rewrite (buildNormalized_few Distance2D Length2D inputFile
                   gpxFile track tracks segment segments Ht Hs Hl) in H.
        inversion H. repeat split; assumption.
      * destruct (buildNormalized_newGpxFor Distance2D Length2D inputFile
                    gpxFile track tracks segment segments Ht Hs Hl)
          as [pts [_ [_ B]]].
        rewrite B in H. discriminate H.
Qed.

(** X4. The three errors of lines 26-40 and nothing else: the function
    reports no tracks exactly when the file has none, no segments exactly
    when the first track has none (whatever later tracks hold), and not
    enough points, with the count found, exactly when the first segment of
    the first track has fewer than two. *)
Theorem buildNormalized_error_iff
  (Distance2D : GPXPoint -> GPXPoint -> float64)
  (Length2D : GPXTrackSegment -> float64) (inputFile : string)
  (gpxFile : GPX) (e : error) :
  buildNormalized Distance2D Length2D inputFile gpxFile = Err e <->
  (Tracks gpxFile = [] /\ e = ErrNoTracks inputFile) \/
  (exists track tracks,
      Tracks gpxFile = track :: tracks /\ Segments track = [] /\
      e = ErrNoSegments inputFile) \/
  (exists track tracks segment segments,
      Tracks gpxFile = track :: tracks /\
      Segments track = segment :: segments /\
      List.length (Points segment) < 2 /\
      e = ErrNotEnoughPoints inputFile (List.length (Points segment))).
Proof.
  split; [apply buildNormalized_Err_inv | ].
  intros [[Ht He] | [[track [tracks [Ht [Hs He]]]]
                    | [track [tracks [segment [segments
                        [Ht [Hs [Hl He]]]]]]]]]; subst e.
  - unfold buildNormalized. rewrite Ht. reflexivity.
  - unfold buildNormalized. rewrite Ht, Hs. reflexivity.
  - apply buildNormalized_few with (1 := Ht) (2 := Hs). exact Hl.
Qed.

(** The part of the function between parsing and serialization never
    panics. *)
Lemma buildNormalized_total
  (Distance2D : GPXPoint -> GPXPoint -> float64)
  (Length2D : GPXTrackSegment -> float64) (inputFile : string)
  (gpxFile : GPX) :
  (exists newGpx,
      buildNormalized Distance2D Length2D inputFile gpxFile = Ok newGpx) \/
  (exists e, buildNormalized Distance2D Length2D inputFile gpxFile = Err e).
Proof.
  destruct (Tracks gpxFile) as [ | track tracks] eqn:Ht.
  - right. eexists. unfold buildNormalized. rewrite Ht. reflexivity.
  - destruct (Segments track) as [ | segment segments] eqn:Hs.
    + right. eexists. unfold buildNormalized. rewrite Ht, Hs. reflexivity.
    + destruct (Nat.lt_ge_cases (List.length (Points segment)) 2)
        as [Hl | Hl].
      * right. eexists.
        apply buildNormalized_few with (1 := Ht) (2 := Hs). exact Hl.
      * left.
        destruct (buildNormalized_newGpxFor Distance2D Length2D inputFile
                    gpxFile track tracks segment segments Ht Hs Hl)
          as [pts [_ [_ B]]].
        eexists. exact B.
Qed.

(** X1. [normalizeGPX] never panics: for every file system, input and
    collaborators it returns nil or one of its errors; no slice is ever
    indexed out of range. *)
Theorem normalizeGPX_never_panics
  (Distance2D : GPXPoint -> GPXPoint -> float64)
  (Length2D : GPXTrackSegment -> float64) (world : Type)
  (os_ReadFile : string -> world -> string + list Byte.byte)
  (gpx_ParseBytes : list Byte.byte -> string + GPX)
  (ToXml : GPX -> string + list Byte.byte)
  (os_WriteFile : string -> list Byte.byte -> world -> world * option string)
  (inputFile outputFile : string) (w : world) :
  snd (normalizeGPX Distance2D Length2D world os_ReadFile gpx_ParseBytes
         ToXml os_WriteFile inputFile outputFile w) = Ok tt \/
  exists e,
    snd (normalizeGPX Distance2D Length2D world os_ReadFile gpx_ParseBytes
           ToXml os_WriteFile inputFile outputFile w) = Err e.
Proof.
  unfold normalizeGPX.
  destruct (os_ReadFile inputFile w) as [c | gpxData];
    [right; eexists; reflexivity | ].
  destruct (gpx_ParseBytes gpxData) as [c | gpxFile];
    [right; eexists; reflexivity | ].
  destruct (buildNormalized_total Distance2D Length2D inputFile gpxFile)
    as [[newGpx B] | [e B]]; rewrite B;
    [ | right; eexists; reflexivity].
  destruct (ToXml newGpx) as [c | xmlBytes];
    [right; eexists; reflexivity | ].
  destruct (os_WriteFile outputFile xmlBytes w) as [w1 [c | ]];
    [right; eexists; reflexivity | left; reflexivity].
Qed.

(** X2. [normalizeGPX] returns nil, leaving the file system [w'], exactly
    when the input file is read and parsed, the file has a first track with
    a first segment of at least two points, the new GPX object (the header
    of the input, creator replaced, one track, one segment, the
    [numTargetPoints] resampled points) is serialized, and writing those
    bytes to the output file succeeds and leaves [w']. *)
Theorem normalizeGPX_nil_iff
  (Distance2D : GPXPoint -> GPXPoint -> float64)
  (Length2D : GPXTrackSegment -> float64) (world : Type)
  (os_ReadFile : string -> world -> string + list Byte.byte)
  (gpx_ParseBytes : list Byte.byte -> string + GPX)
  (ToXml : GPX -> string + list Byte.byte)
  (os_WriteFile : string -> list Byte.byte -> world -> world * option string)
  (inputFile outputFile : string) (w w' : world) :
  normalizeGPX Distance2D Length2D world os_ReadFile gpx_ParseBytes ToXml
    os_WriteFile inputFile outputFile w = (w', Ok tt) <->
  exists gpxData gpxFile track tracks segment segments pts xmlBytes,
    os_ReadFile inputFile w = inr gpxData /\
    gpx_ParseBytes gpxData = inr gpxFile /\
    Tracks gpxFile = track :: tracks /\
    Segments track = segment :: segments /\
    2 <= List.length (Points segment) /\
    resample Distance2D Length2D segment = Ok pts /\
    List.length pts = numTargetPoints /\
    ToXml (newGpxFor gpxFile pts) = inr xmlBytes /\
    os_WriteFile outputFile xmlBytes w = (w', None).
Proof.
  split.
  - intros H.
    destruct (normalizeGPX_Ok_inv _ _ _ _ _ _ _ _ _ _ _ H)
      as [gpxData [gpxFile [newGpx [xmlBytes [Hr [Hp [Hb [Hx Hw]]]]]]]].
    destruct (Tracks gpxFile) as [ | track tracks] eqn:Ht;
      [unfold buildNormalized in Hb; rewrite Ht in Hb; discriminate Hb | ].
    destruct (Segments track) as [ | segment segments] eqn:Hs;
      [unfold buildNormalized in Hb; rewrite Ht, Hs in Hb; discriminate Hb | ].
    destruct (Nat.lt_ge_cases (List.length (Points segment)) 2) as [Hl | Hl].
    + rewrite (buildNormalized_few Distance2D Length2D inputFile gpxFile
                 track tracks segment segments Ht Hs Hl) in Hb.
      discriminate Hb.
    + destruct (buildNormalized_newGpxFor Distance2D Length2D inputFile
                  gpxFile track tracks segment segments Ht Hs Hl)
        as [pts [E [L B]]].
      rewrite B in Hb. inversion Hb; subst newGpx.
      exists gpxData, gpxFile, track, tracks, segment, segments, pts,
        xmlBytes.
      repeat split; assumption.
  - intros [gpxData [gpxFile [track [tracks [segment [segments [pts
             [xmlBytes [Hr [Hp [Ht [Hs [Hl [E [L [Hx Hw]]]]]]]]]]]]]]]].
    destruct (buildNormalized_newGpxFor Distance2D Length2D inputFile
                gpxFile track tracks segment segments Ht Hs Hl)
      as [pts' [E' [_ B]]].
    rewrite E in E'. inversion E'; subst pts'.
    unfold normalizeGPX. rewrite Hr, Hp, B, Hx, Hw. reflexivity.
Qed.

(** X3. No partial writes: [normalizeGPX] either leaves the file system as
    it found it and returns an error that is not the write error, or it has
    called [os.WriteFile] once, on the output file, with the serialization of
    the new GPX object, and returns nil or the write error as that call
    did. *)
Theorem normalizeGPX_only_effect_is_the_write
  (Distance2D : GPXPoint -> GPXPoint -> float64)
  (Length2D : GPXTrackSegment -> float64) (world : Type)
  (os_ReadFile : string -> world -> string + list Byte.byte)
  (gpx_ParseBytes : list Byte.byte -> string + GPX)
  (ToXml : GPX -> string + list Byte.byte)
  (os_WriteFile : string -> list Byte.byte -> world -> world * option string)
  (inputFile outputFile : string) (w : world) :
  (exists e,
      normalizeGPX Distance2D Length2D world os_ReadFile gpx_ParseBytes ToXml
        os_WriteFile inputFile outputFile w = (w, Err e) /\
      match e with ErrWriteFile _ _ => False | _ => True end) \/
  (exists gpxData gpxFile newGpx xmlBytes,
      os_ReadFile inputFile w = inr gpxData /\
      gpx_ParseBytes gpxData = inr gpxFile /\
      buildNormalized Distance2D Length2D inputFile gpxFile = Ok newGpx /\
      ToXml newGpx = inr xmlBytes /\
      normalizeGPX Distance2D Length2D world os_ReadFile gpx_ParseBytes ToXml
        os_WriteFile inputFile outputFile w =
      (fst (os_WriteFile outputFile xmlBytes w),
       match snd (os_WriteFile outputFile xmlBytes w) with
       | Some cause => Err (ErrWriteFile outputFile cause)
       | None => Ok tt
       end)).
Proof.
  unfold normalizeGPX.
  destruct (os_ReadFile inputFile w) as [c | gpxData] eqn:Hr;
    [left; eexists; split; [reflexivity | exact I] | ].
  destruct (gpx_ParseBytes gpxData) as [c | gpxFile] eqn:Hp;
    [left; eexists; split; [reflexivity | exact I] | ].
  destruct (buildNormalized_total Distance2D Length2D inputFile gpxFile)
    as [[newGpx B] | [e B]]; rewrite B.
  - destruct (ToXml newGpx) as [c | xmlBytes] eqn:Hx;
      [left; eexists; split; [reflexivity | exact I] | ].
    right. exists gpxData, gpxFile, newGpx, xmlBytes.
    repeat split; try assumption; try reflexivity.
    destruct (os_WriteFile outputFile xmlBytes w) as [w1 [c | ]];
      reflexivity.
  - left. exists e. split; [reflexivity | ].
    apply buildNormalized_Err_inv in B.
    destruct B as [[_ He] | [[t [ts [_ [_ He]]]]
                            | [t [ts [sg [sgs [_ [_ [_ He]]]]]]]]];
      subst e; exact I.
Qed.

(** X5. Only the first segment of the first track is processed: the result,
    error or new GPX object, is the one for the file that has the same
    header and that segment alone; later segments and later tracks are
    never looked at and do not reach the output. *)
Theorem only_first_segment_is_used
  (Distance2D : GPXPoint -> GPXPoint -> float64)
  (Length2D : GPXTrackSegment -> float64) (inputFile : string)
  (gpxFile : GPX) (track : GPXTrack) (tracks : list GPXTrack)
  (segment : GPXTrackSegment) (segments : list GPXTrackSegment) :
  Tracks gpxFile = track :: tracks ->
  Segments track = segment :: segments ->
  buildNormalized Distance2D Length2D inputFile gpxFile =
  buildNormalized Distance2D Length2D inputFile
    (withOnlySegment gpxFile segment).
Proof.
  intros Ht Hs. unfold buildNormalized. rewrite Ht, Hs.
  unfold withOnlySegment. cbn [Tracks Segments].
  destruct (List.length (Points segment) <? 2); [reflexivity | ].
  destruct (resample Distance2D Length2D segment); reflexivity.
Qed.

Lemma only_first_segment_is_used_witness :
  buildNormalized planarDistance2D planarLength2D "two.gpx" twoTrackGpx =
  buildNormalized planarDistance2D planarLength2D "two.gpx"
    (withOnlySegment twoTrackGpx straightSegment).
Proof.
  apply (only_first_segment_is_used planarDistance2D planarLength2D
           "two.gpx" twoTrackGpx
           {| Segments := [straightSegment; coincidentSegment] |}
           [ {| Segments := [outAndBackSegment] |} ]
           straightSegment [coincidentSegment]);
    reflexivity.
Defined.

(** X6. Timestamps are copied, not interpolated: every interior output point
    carries the timestamp of [p1], the first point of its bracket
    (line 138). *)
Theorem interior_timestamp_is_p1s
  (Distance2D : GPXPoint -> GPXPoint -> float64)
  (Length2D : GPXTrackSegment -> float64) (segment : GPXTrackSegment)
  (i : nat) :
  2 <= List.length (Points segment) ->
  (Length2D segment =? 0)%float = false ->
  0 < i -> i < numTargetPoints - 1 ->
  exists b p,
    bracketAt Distance2D Length2D segment i = Ok b /\
    outputAt Distance2D Length2D segment i = Some p /\
    nth_error (Points segment) (bracketIndex b) = Some (bracketP1 b) /\
    Timestamp p = Timestamp (bracketP1 b).
Proof.
  intros Hlen Hz Hi0 Hi1.
  destruct (interior_point Distance2D Length2D segment i Hlen Hz Hi0 Hi1)
    as [out [b [r [_ [B [_ [_ [_ O]]]]]]]].
  destruct (bracketAt_spec Distance2D Length2D segment i Hlen)
    as [st [b' [_ [_ [B' [_ [_ [N1 _]]]]]]]].
  rewrite B in B'. inversion B'; subst b'.
  exists b, (interpolatePoint (bracketP1 b) (bracketP2 b) r).
  split; [exact B | ]. split; [exact O | ]. split; [exact N1 | ].
  apply interpolatePoint_timestamp.
Qed.

Lemma interior_timestamp_is_p1s_witness :
  exists b p,
    bracketAt planarDistance2D planarLength2D timedSegment 1 = Ok b /\
    outputAt planarDistance2D planarLength2D timedSegment 1 = Some p /\
    nth_error (Points timedSegment) (bracketIndex b) = Some (bracketP1 b) /\
    Timestamp p = Timestamp (bracketP1 b).
Proof.
  apply (interior_timestamp_is_p1s planarDistance2D planarLength2D
           timedSegment 1);
    [simpl; lia | reflexivity | lia | unfold numTargetPoints; lia].
Defined.

(** X7. A path of exactly two points [a], [b]: at every interior output
    index the cursor is at index 0 with cumulative distance 0, the bracket is
    [(a, b)], the output point carries [a]'s timestamp, and its position is
    [a + ratio * (b - a)] where [ratio] is the quotient
    [targetDist / dist(a,b)] when [dist(a,b) > 0] and the quotient lies in
    [[0, 1]], 0 when the quotient is below 0 or the test [dist(a,b) > 0]
    fails, and 1 when the quotient is above 1; it is [a]'s position when the
    quotient, or an interpolated coordinate, is not-a-number. *)
Theorem two_point_path_interpolates_its_points
  (Distance2D : GPXPoint -> GPXPoint -> float64)
  (Length2D : GPXTrackSegment -> float64) (segment : GPXTrackSegment)
  (a b : GPXPoint) (i : nat) :
  Points segment = [a; b] ->
  (Length2D segment =? 0)%float = false ->
  0 < i -> i < numTargetPoints - 1 ->
  exists p,
    cursorBefore Distance2D Length2D segment i = Ok 0 /\
    bracketAt Distance2D Length2D segment i =
      Ok {| bracketCum := 0%float; bracketIndex := 0;
            bracketP1 := a; bracketP2 := b |} /\
    outputAt Distance2D Length2D segment i = Some p /\
    Timestamp p = Timestamp a /\
    let targetDistForCurrentPoint :=
      (float64_of_int i
       * (Length2D segment / float64_of_int (numTargetPoints - 1)))%float in
    let quotient := (targetDistForCurrentPoint / Distance2D a b)%float in
    let along := fun ratio : float64 =>
      let newLat := (Latitude a + ratio * (Latitude b - Latitude a))%float in
      let newLon :=
        (Longitude a + ratio * (Longitude b - Longitude a))%float in
      if IsNaN newLat || IsNaN newLon then position a
      else (newLat, newLon) in
    ((0 <? Distance2D a b)%float = true ->
     (0 <=? quotient)%float = true -> (quotient <=? 1)%float = true ->
     position p = along quotient) /\
    ((0 <? Distance2D a b)%float = true -> (quotient <? 0)%float = true ->
     position p = along 0%float) /\
    ((0 <? Distance2D a b)%float = true -> (1 <? quotient)%float = true ->
     position p = along 1%float) /\
    ((0 <? Distance2D a b)%float = true -> IsNaN quotient = true ->
     position p = position a) /\
    ((0 <? Distance2D a b)%float = false -> position p = along 0%float).
Proof.
  intros Hp Hz Hi0 Hi1.
  assert (Hlen : 2 <= List.length (Points segment))
    by (rewrite Hp; simpl; lia).
  destruct (interior_point Distance2D Length2D segment i Hlen Hz Hi0 Hi1)
    as [out [br [r [_ [B [_ [Er [_ O]]]]]]]].
  destruct (bracketAt_spec Distance2D Length2D segment i Hlen)
    as [st [br' [_ [C [B' [M [Hb [N1 [N2 [Hc _]]]]]]]]]].
  rewrite B in B'. inversion B'; subst br'.
  rewrite Hp in Hb, N1, N2, Hc. simpl in Hb.
  assert (Hi : bracketIndex br = 0) by lia.
  rewrite Hi in N1, N2, Hc. simpl in N1, N2, Hc.
  inversion N1 as [Ha]. inversion N2 as [Hb2].
  assert (Ebr : br = {| bracketCum := 0%float; bracketIndex := 0;
                        bracketP1 := a; bracketP2 := b |}).
  { destruct br as [c k q1 q2]. simpl in *. subst. reflexivity. }
  subst br. simpl in Er, O.
  exists (interpolatePoint a b r).
  split; [rewrite C; f_equal; lia | ].
  split; [exact B | ]. split; [exact O | ].
  split; [apply interpolatePoint_timestamp | ].
  cbv zeta. rewrite Er.
  pose proof (interpolatePoint_position_cases a b
                (targetDist Length2D segment i) 0%float (Distance2D a b))
    as P.
  cbv zeta in P. rewrite sub_zero_r in P. exact P.
Qed.

Lemma two_point_path_interpolates_its_points_witness :
  exists p,
    cursorBefore planarDistance2D planarLength2D timedSegment 500 = Ok 0 /\
    bracketAt planarDistance2D planarLength2D timedSegment 500 =
      Ok {| bracketCum := 0%float; bracketIndex := 0;
            bracketP1 :=
              {| Latitude := 0%float; Longitude := 0%float;
                 Elevation := nullElevation; Timestamp := 100%Z |};
            bracketP2 :=
              {| Latitude := 0%float; Longitude := 8%float;
                 Elevation := nullElevation; Timestamp := 200%Z |} |} /\
    outputAt planarDistance2D planarLength2D timedSegment 500 = Some p /\
    Timestamp p = 100%Z /\
    let quotient :=
      (float64_of_int 500
       * (planarLength2D timedSegment
          / float64_of_int (numTargetPoints - 1)) / 8)%float in
    (0 <=? quotient)%float = true /\
    (quotient <=? 1)%float = true /\
    position p = ((0 + quotient * (0 - 0))%float,
                  (0 + quotient * (8 - 0))%float).
Proof.
  destruct (two_point_path_interpolates_its_points planarDistance2D
              planarLength2D timedSegment
              {| Latitude := 0%float; Longitude := 0%float;
                 Elevation := nullElevation; Timestamp := 100%Z |}
              {| Latitude := 0%float; Longitude := 8%float;
                 Elevation := nullElevation; Timestamp := 200%Z |} 500)
    as [p [C [B [O [T H]]]]];
    [reflexivity | reflexivity | lia | unfold numTargetPoints; lia | ].
  cbv zeta in H. destruct H as [Q _].
  exists p. split; [exact C | ]. split; [exact B | ]. split; [exact O | ].
  split; [exact T | ]. cbv zeta.
  split; [reflexivity | ]. split; [reflexivity | ].
  rewrite (Q eq_refl eq_refl eq_refl). reflexivity.
Defined.

(** ** Further properties of the cursor loop and of the safeguard *)

(** The accumulated length one segment further. *)
Lemma prefixDistance_step (Distance2D : GPXPoint -> GPXPoint -> float64)
  (sourcePoints : list GPXPoint) (idx : nat) (p q : GPXPoint) :
  nth_error sourcePoints idx = Some p ->
  nth_error sourcePoints (idx + 1) = Some q ->
  prefixDistance Distance2D sourcePoints (idx + 1) =
  (prefixDistance Distance2D sourcePoints idx + Distance2D p q)%float.
Proof.
  intros Np Nq. replace (idx + 1) with (Datatypes.S idx) by lia.
  simpl. rewrite Np. replace (Datatypes.S idx) with (idx + 1) in Nq by lia.
  replace (idx + 1) with (Datatypes.S idx) in Nq by lia.
  replace (idx + 1) with (Datatypes.S idx) by lia.
  rewrite Nq. reflexivity.
Qed.

(** The cursor loop passes only segments that end before the target. *)
Lemma advance_passes_short_segments
  (Distance2D : GPXPoint -> GPXPoint -> float64)
  (sourcePoints : list GPXPoint) (target : float64) (rem : nat) :
  forall (cum : float64) (idx : nat) (cum' : float64) (idx' : nat),
    cum = prefixDistance Distance2D sourcePoints idx ->
    advance Distance2D sourcePoints target rem cum idx = Ok (cum', idx') ->
    forall j, idx <= j -> j < idx' ->
      (prefixDistance Distance2D sourcePoints (j + 1) <? target)%float = true.
Proof.
  induction rem as [ | rem IH]; intros cum idx cum' idx' Hc E j Hj1 Hj2.
  - simpl in E. inversion E; subst. lia.
  - simpl in E.
    destruct (index sourcePoints idx) as [p | | ] eqn:Ep;
      simpl in E; try discriminate E.
    destruct (index sourcePoints (idx + 1)) as [q | | ] eqn:Eq;
      simpl in E; try discriminate E.
    apply index_Ok_inv in Ep. apply index_Ok_inv in Eq.
    destruct (cum + Distance2D p q <? target)%float eqn:T.
    + pose proof (prefixDistance_step Distance2D sourcePoints idx p q Ep Eq)
        as St.
      destruct (Nat.eq_dec j idx) as [-> | Hne].
      * rewrite St, <- Hc. exact T.
      * apply (IH (cum + Distance2D p q)%float (idx + 1) cum' idx');
          [rewrite St, Hc; reflexivity | exact E | lia | exact Hj2].
    + inversion E; subst. lia.
Qed.

(** X8. The cursor moves past a segment only when that segment ends
    strictly before the target distance: at every interior output index,
    every segment between the cursor the iteration starts from and the
    bracket it selects has its accumulated end distance below the target. *)
Theorem cursor_passes_only_segments_before_target
  (Distance2D : GPXPoint -> GPXPoint -> float64)
  (Length2D : GPXTrackSegment -> float64) (segment : GPXTrackSegment)
  (i : nat) :
  2 <= List.length (Points segment) ->
  0 < i -> i < numTargetPoints - 1 ->
  exists c b,
    cursorBefore Distance2D Length2D segment i = Ok c /\
    bracketAt Distance2D Length2D segment i = Ok b /\
    forall j, c <= j -> j < bracketIndex b ->
      (prefixDistance Distance2D (Points segment) (j + 1)
       <? targetDist Length2D segment i)%float = true.
Proof.
  intros Hlen Hi0 Hi1.
  destruct (generalLoop_spec Distance2D (Points segment)
              (intervalOf (Length2D segment)) i Hlen)
    as [st [E [_ [Hb Hc]]]].
  destruct (bracketAt_spec Distance2D Length2D segment i Hlen)
    as [st' [b [E' [C [B _]]]]].
  rewrite E in E'. inversion E'; subst st'.
  exists (originalPointIndex st), b.
  split; [exact C | ]. split; [exact B | ].
  unfold bracketAt in B. rewrite E, bind_Ok in B.
  unfold locate, advanceCursor in B.
  destruct (advance Distance2D (Points segment)
              (targetDist Length2D segment i)
              (List.length (Points segment) - 2 - originalPointIndex st)
              (cumulativeDistance st) (originalPointIndex st))
    as [[cum' idx'] | | ] eqn:A; simpl in B; try discriminate B.
  destruct (index (Points segment) idx') as [p1 | | ]; simpl in B;
    try discriminate B.
  destruct (index (Points segment) (idx' + 1)) as [p2 | | ]; simpl in B;
    try discriminate B.
  inversion B; subst b. simpl.
  apply (advance_passes_short_segments Distance2D (Points segment)
           (targetDist Length2D segment i) _ _ _ cum' idx' Hc A).
Qed.

Lemma cursor_passes_only_segments_before_target_witness :
  exists c b,
    cursorBefore planarDistance2D planarLength2D outAndBackSegment 500
      = Ok c /\
    bracketAt planarDistance2D planarLength2D outAndBackSegment 500 = Ok b /\
    forall j, c <= j -> j < bracketIndex b ->
      (prefixDistance planarDistance2D (Points outAndBackSegment) (j + 1)
       <? targetDist planarLength2D outAndBackSegment 500)%float = true.
Proof.
  apply (cursor_passes_only_segments_before_target planarDistance2D
           planarLength2D outAndBackSegment 500);
    [simpl; lia | lia | unfold numTargetPoints; lia].
Defined.

(** Locating the same target again from where the cursor loop stopped. *)
Lemma advance_again (Distance2D : GPXPoint -> GPXPoint -> float64)
  (sourcePoints : list GPXPoint) (target : float64) (rem : nat) :
  forall (cum : float64) (idx : nat) (cum' : float64) (idx' : nat),
    rem = List.length sourcePoints - 2 - idx ->
    advance Distance2D sourcePoints target rem cum idx = Ok (cum', idx') ->
    advance Distance2D sourcePoints target
      (List.length sourcePoints - 2 - idx') cum' idx' = Ok (cum', idx').
Proof.
  induction rem as [ | rem IH]; intros cum idx cum' idx' Hr E.
  - simpl in E. inversion E; subst. rewrite <- Hr. reflexivity.
  - pose proof E as E0. simpl in E.
    destruct (index sourcePoints idx) as [p | | ] eqn:Ep;
      simpl in E; try discriminate E.
    destruct (index sourcePoints (idx + 1)) as [q | | ] eqn:Eq;
      simpl in E; try discriminate E.
    destruct (cum + Distance2D p q <? target)%float eqn:T.
    + apply (IH (cum + Distance2D p q)%float (idx + 1)); [lia | exact E].
    + inversion E; subst. rewrite <- Hr. exact E0.
Qed.

(** X11. The cursor loop is idempotent: run again for the same target from
    the cumulative distance and cursor it returned, it returns them
    unchanged. *)
Theorem advanceCursor_idempotent
  (Distance2D : GPXPoint -> GPXPoint -> float64)
  (sourcePoints : list GPXPoint) (target cum : float64) (idx : nat)
  (cum' : float64) (idx' : nat) :
  advanceCursor Distance2D sourcePoints target cum idx = Ok (cum', idx') ->
  advanceCursor Distance2D sourcePoints target cum' idx' = Ok (cum', idx').
Proof.
  unfold advanceCursor. intros E.
  apply (advance_again Distance2D sourcePoints target
           (List.length sourcePoints - 2 - idx) cum idx cum' idx' eq_refl E).
Qed.

Lemma advanceCursor_idempotent_witness :
  advanceCursor planarDistance2D (Points outAndBackSegment) 1.5%float
    1%float 1 = Ok (1%float, 1).
Proof.
  apply (advanceCursor_idempotent planarDistance2D
           (Points outAndBackSegment) 1.5%float 0%float 0 1%float 1).
  vm_compute. reflexivity.
Defined.

Lemma padLoop_repeat (k : nat) (pts : list GPXPoint) (lastPt : GPXPoint) :
  padLoop k pts lastPt = pts ++ repeat lastPt k.
Proof.
  revert pts. induction k as [ | k IH]; intros pts; simpl.
  - rewrite app_nil_r. reflexivity.
  - rewrite IH, <- app_assoc. reflexivity.
Qed.

(** X9. The safeguard of lines 159-166, on a slice of at least one point
    and a non-empty input: it returns exactly [numTargetPoints] points,
    keeps every point it had at an index below [numTargetPoints] where it
    was, and fills every further index with the last point it had. *)
Theorem safeguard_pads_with_last_or_truncates
  (sourcePoints pts : list GPXPoint) :
  1 <= List.length sourcePoints ->
  1 <= List.length pts ->
  exists out,
    safeguard sourcePoints pts = Ok out /\
    List.length out = numTargetPoints /\
    (forall i, i < List.length pts -> i < numTargetPoints ->
       nth_error out i = nth_error pts i) /\
    (forall i, List.length pts <= i -> i < numTargetPoints ->
       nth_error out i = lastPoint pts).
Proof.
  intros Hs Hp. unfold safeguard.
  destruct (List.length pts <? numTargetPoints) eqn:G1.
  - apply Nat.ltb_lt in G1.
    destruct (0 <? List.length sourcePoints) eqn:G2;
      [ | apply Nat.ltb_ge in G2; lia].
    destruct (index_Ok pts (List.length pts - 1)) as [lastPt [E N]];
      [lia | ].
    simpl andb. rewrite E, bind_Ok, padLoop_repeat.
    eexists. split; [reflexivity | ].
    split; [rewrite length_app, repeat_length; lia | ].
    split.
    + intros i Hi _. apply nth_error_app1. exact Hi.
    + intros i Hi1 Hi2. rewrite nth_error_app2 by exact Hi1.
      unfold lastPoint. rewrite N. apply nth_error_repeat. lia.
  - apply Nat.ltb_ge in G1. simpl andb.
    destruct (numTargetPoints <? List.length pts) eqn:G3.
    + eexists. split; [reflexivity | ].
      split; [apply firstn_length_le; exact G1 | ].
      split.
      * intros i _ Hi. rewrite nth_error_firstn.
        apply Nat.ltb_lt in Hi. rewrite Hi. reflexivity.
      * intros i Hi1 Hi2. apply Nat.ltb_lt in G3. lia.
    + apply Nat.ltb_ge in G3. exists pts. split; [reflexivity | ].
      split; [lia | ]. split; [reflexivity | ].
      intros i Hi1 Hi2. lia.
Qed.

Lemma safeguard_pads_with_last_or_truncates_witness :
  exists out,
    safeguard [pt 0 0] [pt 1 1; pt 2 2] = Ok out /\
    List.length out = numTargetPoints /\
    (forall i, i < List.length [pt 1 1; pt 2 2] -> i < numTargetPoints ->
       nth_error out i = nth_error [pt 1 1; pt 2 2] i) /\
    (forall i, List.length [pt 1 1; pt 2 2] <= i -> i < numTargetPoints ->
       nth_error out i = lastPoint [pt 1 1; pt 2 2]).
Proof.
  apply (safeguard_pads_with_last_or_truncates [pt 0 0] [pt 1 1; pt 2 2]);
    simpl; lia.
Defined.

(** [resample] is the loop of lines 72-152 followed by the safeguard. *)
Lemma resample_loop_then_safeguard
  (Distance2D : GPXPoint -> GPXPoint -> float64)
  (Length2D : GPXTrackSegment -> float64) (segment : GPXTrackSegment) :
  resample Distance2D Length2D segment =
  bind (resampleLoop Distance2D Length2D segment)
    (safeguard (Points segment)).
Proof. unfold resample, resampleLoop. reflexivity. Qed.

(** X10. The safeguard never has anything to do: for every input of at
    least two points the loops of lines 72-152 have already produced exactly
    [numTargetPoints] points, and the safeguard returns them as they are,
    neither padded nor truncated. *)
Theorem safeguard_never_changes_the_output
  (Distance2D : GPXPoint -> GPXPoint -> float64)
  (Length2D : GPXTrackSegment -> float64) (segment : GPXTrackSegment) :
  2 <= List.length (Points segment) ->
  exists pts,
    resampleLoop Distance2D Length2D segment = Ok pts /\
    List.length pts = numTargetPoints /\
    safeguard (Points segment) pts = Ok pts /\
    resample Distance2D Length2D segment = Ok pts.
Proof.
  intros Hlen. unfold resampleLoop.
  destruct (Length2D segment =? 0)%float eqn:Hz.
  - destruct (resample_zero Distance2D Length2D segment) as [first [Nf E]];
      [lia | exact Hz | ].
    destruct (0 <? List.length (Points segment)) eqn:G;
      [ | apply Nat.ltb_ge in G; lia].
    unfold index. rewrite Nf, bind_Ok, forRange_append, app_nil_l.
    exists (repeat first numTargetPoints).
    split; [reflexivity | ]. split; [apply repeat_length | ].
    split; [apply safeguard_exact; apply repeat_length | exact E].
  - destruct (resample_general Distance2D Length2D segment Hlen Hz)
      as [st [Ek [L E]]].
    rewrite Ek, bind_Ok. exists (newSegmentPoints st).
    split; [reflexivity | ]. split; [exact L | ].
    split; [apply safeguard_exact; exact L | exact E].
Qed.

Lemma safeguard_never_changes_the_output_witness :
  exists pts,
    resampleLoop planarDistance2D planarLength2D outAndBackSegment = Ok pts /\
    List.length pts = numTargetPoints /\
    safeguard (Points outAndBackSegment) pts = Ok pts /\
    resample planarDistance2D planarLength2D outAndBackSegment = Ok pts.
Proof.
  apply (safeguard_never_changes_the_output planarDistance2D planarLength2D
           outAndBackSegment).
  simpl; lia.
Defined.

(** ** Further properties of the ratio and of the interpolation *)

Lemma SFeqb_refl (x : spec_float) : x <> S754_nan -> SFeqb x x = true.
Proof.
  unfold SFeqb. destruct x as [s | s | | s m e]; simpl; intros H;
    try reflexivity; try contradiction.
  - destruct s; reflexivity.
  - destruct s; rewrite Z.compare_refl, Pos.compare_cont_refl; reflexivity.
Qed.

Lemma add_zero_times_eqb (x y : float64) :
  IsNaN (x + 0 * y)%float = false -> (x + 0 * y =? x)%float = true.
Proof.
  intros N. apply IsNaN_false in N. rewrite FloatAxioms.eqb_spec.
  rewrite FloatAxioms.add_spec, FloatAxioms.mul_spec, Prim2SF_zero in N.
  rewrite FloatAxioms.add_spec, FloatAxioms.mul_spec, Prim2SF_zero.
  unfold SF64add, SF64mul in *.
  destruct (Prim2SF x) as [sx | sx | | sx mx ex],
           (Prim2SF y) as [sy | sy | | sy my ey];
    simpl in *; try contradiction;
    try (destruct sx, sy; simpl in *; try contradiction; reflexivity);
    try (destruct sx; simpl in *; try contradiction; reflexivity);
    try (apply SFeqb_refl; discriminate).
Qed.

Lemma eqb_refl_not_nan (x : float64) :
  IsNaN x = false -> (x =? x)%float = true.
Proof.
  unfold IsNaN, is_nan. destruct (x =? x)%float; [reflexivity | discriminate].
Qed.

(** At ratio 0 the interpolated coordinates are those of [p1], as [==]
    compares them, whatever [p2] is. *)
Lemma interpolatePoint_ratio_zero (p1 p2 : GPXPoint) :
  (IsNaN (Latitude p1) = false ->
   (Latitude (interpolatePoint p1 p2 0) =? Latitude p1)%float = true) /\
  (IsNaN (Longitude p1) = false ->
   (Longitude (interpolatePoint p1 p2 0) =? Longitude p1)%float = true).
Proof.
  pose proof (interpolatePoint_position p1 p2 0%float) as P.
  cbv zeta in P. unfold position in P.
  destruct (IsNaN (Latitude p1 + 0 * (Latitude p2 - Latitude p1))%float)
    eqn:NLat;
  destruct (IsNaN (Longitude p1 + 0 * (Longitude p2 - Longitude p1))%float)
    eqn:NLon;
  simpl in P; inversion P as [[PLat PLon]]; rewrite PLat, PLon;
  split; intros N;
  try (apply eqb_refl_not_nan; exact N);
  apply add_zero_times_eqb; assumption.
Qed.

(** X12. The clamp of lines 116-117 on the quotient of line 113: when
    [dist(p1,p2) > 0], the ratio of an interior output index is 0 if the
    quotient is below 0, 1 if it is above 1, and the quotient itself,
    unchanged, if it lies in [[0, 1]]. *)
Theorem ratio_is_the_clamped_quotient
  (Distance2D : GPXPoint -> GPXPoint -> float64)
  (Length2D : GPXTrackSegment -> float64) (segment : GPXTrackSegment)
  (i : nat) :
  2 <= List.length (Points segment) ->
  (Length2D segment =? 0)%float = false ->
  0 < i -> i < numTargetPoints - 1 ->
  exists b r,
    bracketAt Distance2D Length2D segment i = Ok b /\
    ratioAt Distance2D Length2D segment i = Ok r /\
    let distP1P2 := Distance2D (bracketP1 b) (bracketP2 b) in
    let quotient :=
      ((targetDist Length2D segment i - bracketCum b) / distP1P2)%float in
    ((0 <? distP1P2)%float = true ->
     ((quotient <? 0)%float = true -> r = 0%float) /\
     ((1 <? quotient)%float = true -> r = 1%float) /\
     ((0 <=? quotient)%float = true -> (quotient <=? 1)%float = true ->
      r = quotient)).
Proof.
  intros Hlen Hz Hi0 Hi1.
  destruct (interior_point Distance2D Length2D segment i Hlen Hz Hi0 Hi1)
    as [out [b [r [_ [B [R [Er _]]]]]]].
  exists b, r. split; [exact B | ]. split; [exact R | ].
  cbv zeta. intros D. rewrite Er. unfold computeRatio. cbv zeta. rewrite D.
  split; [ | split].
  - intros Q. rewrite Q. reflexivity.
  - intros Q. rewrite (above_one_not_below_zero _ Q), Q. reflexivity.
  - intros Q0 Q1.
    rewrite (leb_not_ltb _ _ Q0), (leb_not_ltb _ _ Q1). reflexivity.
Qed.

Lemma ratio_is_the_clamped_quotient_witness :
  exists b r,
    bracketAt planarDistance2D planarLength2D straightSegment 1 = Ok b /\
    ratioAt planarDistance2D planarLength2D straightSegment 1 = Ok r /\
    let distP1P2 := planarDistance2D (bracketP1 b) (bracketP2 b) in
    let quotient :=
      ((targetDist planarLength2D straightSegment 1 - bracketCum b)
       / distP1P2)%float in
    ((0 <? distP1P2)%float = true ->
     ((quotient <? 0)%float = true -> r = 0%float) /\
     ((1 <? quotient)%float = true -> r = 1%float) /\
     ((0 <=? quotient)%float = true -> (quotient <=? 1)%float = true ->
      r = quotient)).
Proof.
  apply (ratio_is_the_clamped_quotient planarDistance2D planarLength2D
           straightSegment 1);
    [simpl; lia | reflexivity | lia | unfold numTargetPoints; lia].
Defined.

(** X13. A bracket of no positive length: when the test [dist(p1,p2) > 0]
    fails at an interior output index (coincident bracketing points, or a
    not-a-number distance), the ratio is 0 and the output latitude and
    longitude compare equal to [p1]'s, unless [p1]'s own coordinate is
    not-a-number. *)
Theorem bracket_of_no_length_yields_p1
  (Distance2D : GPXPoint -> GPXPoint -> float64)
  (Length2D : GPXTrackSegment -> float64) (segment : GPXTrackSegment)
  (i : nat) :
  2 <= List.length (Points segment) ->
  (Length2D segment =? 0)%float = false ->
  0 < i -> i < numTargetPoints - 1 ->
  exists b r p,
    bracketAt Distance2D Length2D segment i = Ok b /\
    ratioAt Distance2D Length2D segment i = Ok r /\
    outputAt Distance2D Length2D segment i = Some p /\
    ((0 <? Distance2D (bracketP1 b) (bracketP2 b))%float = false ->
     r = 0%float /\
     (IsNaN (Latitude (bracketP1 b)) = false ->
      (Latitude p =? Latitude (bracketP1 b))%float = true) /\
     (IsNaN (Longitude (bracketP1 b)) = false ->
      (Longitude p =? Longitude (bracketP1 b))%float = true)).
Proof.
  intros Hlen Hz Hi0 Hi1.
  destruct (interior_point Distance2D Length2D segment i Hlen Hz Hi0 Hi1)
    as [out [b [r [_ [B [R [Er [_ O]]]]]]]].
  exists b, r, (interpolatePoint (bracketP1 b) (bracketP2 b) r).
  split; [exact B | ]. split; [exact R | ]. split; [exact O | ].
  intros D.
  assert (Hr : r = 0%float)
    by (rewrite Er; apply computeRatio_no_division; exact D).
  split; [exact Hr | ]. rewrite Hr.
  apply interpolatePoint_ratio_zero.
Qed.

Lemma bracket_of_no_length_yields_p1_witness :
  exists b r p,
    bracketAt planarDistance2D planarLength2D stalledSegment 1 = Ok b /\
    ratioAt planarDistance2D planarLength2D stalledSegment 1 = Ok r /\
    outputAt planarDistance2D planarLength2D stalledSegment 1 = Some p /\
    (0 <? planarDistance2D (bracketP1 b) (bracketP2 b))%float = false /\
    r = 0%float /\
    (Latitude p =? Latitude (bracketP1 b))%float = true /\
    (Longitude p =? Longitude (bracketP1 b))%float = true.
Proof.
  destruct (bracket_of_no_length_yields_p1 planarDistance2D planarLength2D
              stalledSegment 1) as [b [r [p [B [R [O H]]]]]];
    [simpl; lia | reflexivity | lia | unfold numTargetPoints; lia | ].
  assert (Hb : b = {| bracketCum := 0%float; bracketIndex := 0;
                      bracketP1 := pt 3 4; bracketP2 := pt 3 4 |}).
  { vm_compute in B. inversion B. reflexivity. }
  assert (D : (0 <? planarDistance2D (bracketP1 b) (bracketP2 b))%float
              = false) by (rewrite Hb; reflexivity).
  destruct (H D) as [Hr [HLat HLon]].
  exists b, r, p. split; [exact B | ]. split; [exact R | ].
  split; [exact O | ]. split; [exact D | ]. split; [exact Hr | ].
  split; [apply HLat | apply HLon]; rewrite Hb; reflexivity.
Defined.
